(** * VoltEdge: the in-memory charging domain and its service registry

    A shallow embedding of [models/charger.py], [models/station.py],
    [models/session.py], [models/user.py], [models/maintenance.py] and
    [services/service.py].

    Conventions of the embedding.
    - Python objects that are shared and mutated (Charger, User, Session)
      live in an object store, one growing list per class; a reference is an
      index into that list.  Attributes holding such objects hold references.
    - A Python [dict] is an insertion-ordered association list ([PyDict]).
    - [datetime] values are integers counting microseconds on the naive local
      time line; every operation that reads the clock takes the instant [now]
      it reads as an argument.
    - [float] amounts (balance, tariff, energy, cost) are Rocq's primitive
      binary64 floats, whose operations are the IEEE 754 ones Python uses.
      Only the availability percentage of the station report is given as the
      exact quotient, since nothing but its bounds is stated.
    - [print] calls are not modelled. *)

From Stdlib Require Import ZArith QArith Lqa String Floats.
From stdpp Require Import base option list.

Set Warnings "-inexact-float".

Open Scope string_scope.
Open Scope list_scope.
Open Scope Z_scope.

(** ** Python dictionaries *)

Module PyDict.
Section dict.
Context {K V : Type} `{EqDecision K}.

Definition dict := list (K * V).

Definition empty : dict := [].

(** [d.get(k)] *)
Fixpoint get (k : K) (d : dict) : option V :=
  match d with
  | [] => None
  | (k', v) :: d' => if decide (k = k') then Some v else get k d'
  end.

(** [k in d] *)
Definition contains (k : K) (d : dict) : bool :=
  match get k d with Some _ => true | None => false end.

(** [d[k] = v]: an existing key keeps its position, a new key goes last. *)
Fixpoint set (k : K) (v : V) (d : dict) : dict :=
  match d with
  | [] => [(k, v)]
  | (k', v') :: d' =>
      if decide (k = k') then (k, v) :: d' else (k', v') :: set k v d'
  end.

(** [del d[k]] for a key that is present: the entry under [k] goes, the
    others keep their order. *)
Fixpoint del (k : K) (d : dict) : dict :=
  match d with
  | [] => []
  | (k', v') :: d' =>
      if decide (k = k') then del k d' else (k', v') :: del k d'
  end.

(** [d.values()] *)
Definition values (d : dict) : list V := map snd d.
End dict.
Global Arguments dict : clear implicits.
End PyDict.

Abbreviation dict := PyDict.dict.

(** A reference to an object of the store: its index in the store's list. *)
Abbreviation ref := nat (only parsing).

(** [uuid.UUID] values, as the 128-bit number they carry. *)
Abbreviation UUID := Z (only parsing).

(** ** models/charger.py *)

Record Charger := mkCharger {
  ch_id : Z;
  ch_type : string;
  ch_status : string
}.

(** [Charger(id, type)]: the status argument defaults to ["available"]. *)
Definition Charger_init (id : Z) (type : string) : Charger :=
  {| ch_id := id; ch_type := type; ch_status := "available" |}.

Definition set_status (c : Charger) (s : string) : Charger :=
  {| ch_id := ch_id c; ch_type := ch_type c; ch_status := s |}.

Definition start_charge (self : Charger) : Charger :=
  if String.eqb (ch_status self) "disponible"
  then set_status self "ocupado"
  else self.

Definition stop_charge (self : Charger) : Charger :=
  if String.eqb (ch_status self) "ocupado"
  then set_status self "disponible"
  else self.

(** ** models/session.py *)

(** [datetime.timedelta], normalised as Python keeps it:
    [0 <= seconds < 86400] and [0 <= microseconds < 1000000]. *)
Record timedelta := mkTimedelta {
  td_days : Z;
  td_seconds : Z;
  td_microseconds : Z
}.

Definition us_per_second : Z := 1000000.
Definition us_per_day : Z := 86400 * us_per_second.

(** [a - b] on two datetimes. *)
Definition datetime_sub (a b : Z) : timedelta :=
  let d := a - b in
  {| td_days := d / us_per_day;
     td_seconds := (d mod us_per_day) / us_per_second;
     td_microseconds := d mod us_per_second |}.

Record Session := mkSession {
  se_user : ref;
  se_charger : ref;
  start_time : Z;
  end_time : option Z
}.

(** [Session(user, charger)], constructed at instant [now]. *)
Definition Session_init (user charger : ref) (now : Z) : Session :=
  {| se_user := user; se_charger := charger;
     start_time := now; end_time := None |}.

(** [Session.end], called at instant [now]. *)
Definition Session_end (self : Session) (now : Z) : Session :=
  {| se_user := se_user self; se_charger := se_charger self;
     start_time := start_time self; end_time := Some now |}.

(** [Session.get_duration], called at instant [now]. *)
Definition get_duration (self : Session) (now : Z) : Z :=
  match end_time self with
  | Some e => td_seconds (datetime_sub e (start_time self)) / 60
  | None => td_seconds (datetime_sub now (start_time self)) / 60
  end.

(** ** models/user.py *)

Record User := mkUser {
  u_id : UUID;
  u_name : string;
  u_email : string;
  password_hash : string;
  user_type : string;
  active_session : option ref;
  saldo : float;
  sessions_history : list ref
}.

(** [User(name, email, password_hash, user_type, saldo=...)]; [id] is the
    identifier drawn by [uuid4()]. *)
Definition User_init (id : UUID) (name email pwhash utype : string)
    (saldo0 : float) : User :=
  {| u_id := id; u_name := name; u_email := email; password_hash := pwhash;
     user_type := utype; active_session := None; saldo := saldo0;
     sessions_history := [] |}.

Definition set_saldo (u : User) (x : float) : User :=
  {| u_id := u_id u; u_name := u_name u; u_email := u_email u;
     password_hash := password_hash u; user_type := user_type u;
     active_session := active_session u; saldo := x;
     sessions_history := sessions_history u |}.

Definition set_active_session (u : User) (s : option ref) : User :=
  {| u_id := u_id u; u_name := u_name u; u_email := u_email u;
     password_hash := password_hash u; user_type := user_type u;
     active_session := s; saldo := saldo u;
     sessions_history := sessions_history u |}.

Definition set_sessions_history (u : User) (l : list ref) : User :=
  {| u_id := u_id u; u_name := u_name u; u_email := u_email u;
     password_hash := password_hash u; user_type := user_type u;
     active_session := active_session u; saldo := saldo u;
     sessions_history := l |}.

Definition is_admin (self : User) : bool := String.eqb (user_type self) "admin".

(** The literals [0.25] and [0.30]: the second is the double nearest to
    3/10. *)
Definition get_tarifa (self : User) : float :=
  if String.eqb (user_type self) "empresa" then 0.25%float else 0.3%float.

Definition recargar_saldo (self : User) (cantidad : float) : User * bool :=
  if (cantidad <=? 0)%float then (self, false)
  else (set_saldo self (saldo self + cantidad)%float, true).

(** [self.saldo >= cantidad] *)
Definition tiene_saldo_suficiente (self : User) (cantidad : float) : bool :=
  (cantidad <=? saldo self)%float.

Definition descontar_saldo (self : User) (cantidad : float) : User * bool :=
  if negb (tiene_saldo_suficiente self cantidad) then (self, false)
  else (set_saldo self (saldo self - cantidad)%float, true).

(** ** The object store *)

Record Heap := mkHeap {
  charger_objs : list Charger;
  user_objs : list User;
  session_objs : list Session
}.

Definition empty_heap : Heap :=
  {| charger_objs := []; user_objs := []; session_objs := [] |}.

Definition set_charger_objs (h : Heap) (l : list Charger) : Heap :=
  {| charger_objs := l; user_objs := user_objs h;
     session_objs := session_objs h |}.

Definition set_user_objs (h : Heap) (l : list User) : Heap :=
  {| charger_objs := charger_objs h; user_objs := l;
     session_objs := session_objs h |}.

Definition set_session_objs (h : Heap) (l : list Session) : Heap :=
  {| charger_objs := charger_objs h; user_objs := user_objs h;
     session_objs := l |}.

(** ** models/station.py *)

Record Station := mkStation {
  st_id : Z;
  st_name : string;
  st_location : string;
  st_chargers : list ref
}.

Definition Station_init (id : Z) (name location : string) : Station :=
  {| st_id := id; st_name := name; st_location := location;
     st_chargers := [] |}.

Definition add_charger (self : Station) (charger : ref) : Station :=
  {| st_id := st_id self; st_name := st_name self;
     st_location := st_location self;
     st_chargers := st_chargers self ++ [charger] |}.

(** The test [c.status == s] on the charger that [c] refers to. *)
Definition status_is (h : Heap) (s : string) (c : ref) : bool :=
  match charger_objs h !! c with
  | Some ch => String.eqb (ch_status ch) s
  | None => false
  end.

Definition get_available_chargers (h : Heap) (self : Station) : list ref :=
  List.filter (status_is h "available") (st_chargers self).

Definition reserve_charger (h : Heap) (self : Station) : Heap * option ref :=
  match get_available_chargers h self with
  | charger :: _ =>
      (set_charger_objs h
         (alter (fun c => set_status c "ocupado") charger (charger_objs h)),
       Some charger)
  | [] => (h, None)
  end.

(** ** models/user.py: the methods that reach other objects *)

(** [User.start_session(charger)] on the user [self], at instant [now].
    The new session is allocated at the end of the session store. *)
Definition start_session (h : Heap) (self charger : ref) (now : Z)
    : Heap * option ref :=
  match user_objs h !! self, charger_objs h !! charger with
  | Some u, Some c =>
      if String.eqb (ch_status c) "disponible"
         || String.eqb (ch_status c) "available"
      then
        let h1 := set_charger_objs h (alter start_charge charger (charger_objs h)) in
        let s := length (session_objs h1) in
        let h2 := set_session_objs h1
                    (session_objs h1 ++ [Session_init self charger now]) in
        let h3 := set_user_objs h2
                    (<[self := set_active_session u (Some s)]> (user_objs h2)) in
        (h3, Some s)
      else (h, None)
  | _, _ => (h, None)
  end.

(** Energy drawn per minute of session (kWh), the simulated rate. *)
Definition kwh_per_minute : float := 0.5%float.

(** The conversion [float(n)] that Python applies to the [int] operand of
    [duracion_minutos * 0.5]; it is exact for [|n| < 2^53], and a duration is
    below 1440. *)
Definition float_of_int (n : Z) : float :=
  if n <? 0 then (- of_uint63 (Uint63.of_Z (- n)))%float
  else of_uint63 (Uint63.of_Z n).

(** [User.end_session()] on the user [self], at instant [now]. *)
Definition end_session (h : Heap) (self : ref) (now : Z) : Heap :=
  match user_objs h !! self with
  | Some u =>
      match active_session u with
      | Some s =>
          match session_objs h !! s with
          | Some ses =>
              let ses' := Session_end ses now in
              let h1 := set_session_objs h (<[s := ses']> (session_objs h)) in
              let duracion_minutos := get_duration ses' now in
              let kwh_consumidos :=
                (float_of_int duracion_minutos * kwh_per_minute)%float in
              let tarifa := get_tarifa u in
              let coste := (kwh_consumidos * tarifa)%float in
              let u1 := fst (descontar_saldo u coste) in
              let u2 := set_sessions_history u1 (sessions_history u1 ++ [s]) in
              let h2 := set_charger_objs h1
                          (alter stop_charge (se_charger ses') (charger_objs h1)) in
              let u3 := set_active_session u2 None in
              set_user_objs h2 (<[self := u3]> (user_objs h2))
          | None => h
          end
      | None => h
      end
  | None => h
  end.

(** ** models/maintenance.py *)

(** What the two subclasses add to the base class. *)
Inductive MaintenanceVariant :=
  | Preventive (frecuencia : string)
  | Corrective (descripcion_fallo : string).

Record Maintenance := mkMaintenance {
  id_mantenimiento : Z;
  fecha : Z;
  tecnico : string;
  tipo : string;
  estado : string;
  estacion_id : option Z;
  notas : string;
  variant : MaintenanceVariant
}.

Definition set_estado_notas (m : Maintenance) (e n : string) : Maintenance :=
  {| id_mantenimiento := id_mantenimiento m; fecha := fecha m;
     tecnico := tecnico m; tipo := tipo m; estado := e;
     estacion_id := estacion_id m; notas := n; variant := variant m |}.

Definition asignar_estacion (m : Maintenance) (station_id : Z) : Maintenance :=
  {| id_mantenimiento := id_mantenimiento m; fecha := fecha m;
     tecnico := tecnico m; tipo := tipo m; estado := estado m;
     estacion_id := Some station_id; notas := notas m; variant := variant m |}.

Definition programar (m : Maintenance) : Maintenance :=
  set_estado_notas m "programado" (notas m).

Definition iniciar (m : Maintenance) : Maintenance :=
  set_estado_notas m "en_proceso" (notas m).

Definition marcar_completado (m : Maintenance) (n : string) : Maintenance :=
  set_estado_notas m "completado" n.

(** ** services/auth_service.py and the libraries behind it *)

(** The functions the code calls in Python's library and in passlib.
    [pwd_context_hash salt pw] is [pwd_context.hash(pw)] when the Argon2
    context draws [salt]; [fromisoformat] is [datetime.fromisoformat], with
    [None] standing for its [ValueError]. *)
Record External := mkExternal {
  encode_utf8 : string -> list Byte.byte;
  decode_utf8_ignore : list Byte.byte -> string;
  pwd_context_hash : string -> string -> string;
  fromisoformat : string -> option Z
}.

Definition hash_password (ext : External) (salt password : string) : string :=
  let password_bytes := take 72 (encode_utf8 ext password) in
  let password_truncated := decode_utf8_ignore ext password_bytes in
  pwd_context_hash ext salt password_truncated.

(** ** services/service.py *)

Record ChargingService := mkService {
  stations : dict Z Station;
  chargers : dict Z ref;
  users : dict UUID ref;
  sessions : dict UUID ref;
  maintenances : dict Z Maintenance
}.

(** [ChargingService()] *)
Definition ChargingService_init : ChargingService :=
  {| stations := PyDict.empty; chargers := PyDict.empty;
     users := PyDict.empty; sessions := PyDict.empty;
     maintenances := PyDict.empty |}.

Definition set_stations (s : ChargingService) (d : dict Z Station) :=
  {| stations := d; chargers := chargers s; users := users s;
     sessions := sessions s; maintenances := maintenances s |}.

Definition set_chargers (s : ChargingService) (d : dict Z ref) :=
  {| stations := stations s; chargers := d; users := users s;
     sessions := sessions s; maintenances := maintenances s |}.

Definition set_users (s : ChargingService) (d : dict UUID ref) :=
  {| stations := stations s; chargers := chargers s; users := d;
     sessions := sessions s; maintenances := maintenances s |}.

Definition set_sessions (s : ChargingService) (d : dict UUID ref) :=
  {| stations := stations s; chargers := chargers s; users := users s;
     sessions := d; maintenances := maintenances s |}.

Definition set_maintenances (s : ChargingService) (d : dict Z Maintenance) :=
  {| stations := stations s; chargers := chargers s; users := users s;
     sessions := sessions s; maintenances := d |}.

(** The program state: the object store and the service that indexes it. *)
Record World := mkWorld {
  heap : Heap;
  service : ChargingService
}.

Definition world0 : World :=
  {| heap := empty_heap; service := ChargingService_init |}.

(** Exceptions raised by the service. *)
Inductive exn :=
  | ValueError (msg : string).

(** The test [user.email == email] on the user that [r] refers to. *)
Definition email_is (h : Heap) (email : string) (r : ref) : bool :=
  match user_objs h !! r with
  | Some u => String.eqb (u_email u) email
  | None => false
  end.

Definition get_user_by_email (w : World) (email : string) : option ref :=
  List.find (email_is (heap w) email) (PyDict.values (users (service w))).

Definition get_user_by_id (w : World) (user_id : UUID) : option ref :=
  PyDict.get user_id (users (service w)).

Definition get_station (w : World) (station_id : Z) : option Station :=
  PyDict.get station_id (stations (service w)).

Definition get_charger (w : World) (charger_id : Z) : option ref :=
  PyDict.get charger_id (chargers (service w)).

(** [register_user]: [new_id] is the identifier [uuid4()] draws and [salt]
    the salt the password context draws.  The result is the raised exception
    or the reference to the created user. *)
Definition register_user (ext : External) (w : World) (new_id : UUID)
    (salt name email password utype : string) (saldo_inicial : float)
    : World * (exn + ref) :=
  match get_user_by_email w email with
  | Some _ =>
      (w, inl (ValueError ("El email " ++ email ++ " ya está registrado.")))
  | None =>
      let pwhash := hash_password ext salt password in
      let user := User_init new_id name email pwhash utype saldo_inicial in
      let r := length (user_objs (heap w)) in
      ({| heap := set_user_objs (heap w) (user_objs (heap w) ++ [user]);
          service := set_users (service w)
                       (PyDict.set (u_id user) r (users (service w))) |},
       inr r)
  end.

Definition create_station (w : World) (id : Z) (name location : string)
    : World :=
  {| heap := heap w;
     service := set_stations (service w)
                  (PyDict.set id (Station_init id name location)
                     (stations (service w))) |}.

Definition delete_station (w : World) (station_id : Z) : World * bool :=
  if PyDict.contains station_id (stations (service w))
  then ({| heap := heap w;
           service := set_stations (service w)
                        (PyDict.del station_id (stations (service w))) |},
        true)
  else (w, false).

Definition add_charger_to_station (w : World) (station_id charger_id : Z)
    (charger_type : string) : World * option ref :=
  match get_station w station_id with
  | None => (w, None)
  | Some station =>
      let charger := length (charger_objs (heap w)) in
      let h := set_charger_objs (heap w)
                 (charger_objs (heap w) ++ [Charger_init charger_id charger_type]) in
      let sv := set_stations (service w)
                  (PyDict.set station_id (add_charger station charger)
                     (stations (service w))) in
      ({| heap := h;
          service := set_chargers sv (PyDict.set charger_id charger (chargers sv)) |},
       Some charger)
  end.

(** [session.user.id] *)
Definition session_user_id (h : Heap) (session : ref) : option UUID :=
  ses ← session_objs h !! session;
  u ← user_objs h !! se_user ses;
  Some (u_id u).

Definition start_charging (w : World) (user_id : UUID) (station_id : Z)
    (now : Z) : World * option ref :=
  match get_user_by_id w user_id, get_station w station_id with
  | None, _ => (w, None)
  | Some _, None => (w, None)
  | Some user, Some station =>
      match get_available_chargers (heap w) station with
      | [] => (w, None)
      | charger :: _ =>
          match start_session (heap w) user charger now with
          | (h, Some session) =>
              match session_user_id h session with
              | Some uid =>
                  ({| heap := h;
                      service := set_sessions (service w)
                                   (PyDict.set uid session (sessions (service w))) |},
                   Some session)
              | None => ({| heap := h; service := service w |}, Some session)
              end
          | (h, None) => ({| heap := h; service := service w |}, None)
          end
      end
  end.

Definition end_charging (w : World) (user_id : UUID) (now : Z)
    : World * bool :=
  match get_user_by_id w user_id with
  | None => (w, false)
  | Some user =>
      let h := end_session (heap w) user now in
      ({| heap := h;
          service :=
            if PyDict.contains user_id (sessions (service w))
            then set_sessions (service w)
                   (PyDict.del user_id (sessions (service w)))
            else service w |},
       true)
  end.

Definition recargar_saldo_usuario (w : World) (user_id : UUID) (cantidad : float)
    : World * bool :=
  match get_user_by_id w user_id with
  | None => (w, false)
  | Some user =>
      match user_objs (heap w) !! user with
      | Some u =>
          let (u', ok) := recargar_saldo u cantidad in
          ({| heap := set_user_objs (heap w) (<[user := u']> (user_objs (heap w)));
              service := service w |}, ok)
      | None => (w, false)
      end
  end.

(** [Maintenance.__init__] for a [fecha] given as a string, at instant
    [now]: a string that does not parse falls back to the current time. *)
Definition Maintenance_init (ext : External) (id : Z) (fecha_str tecnico_ tipo_ : string)
    (v : MaintenanceVariant) (now : Z) : Maintenance :=
  {| id_mantenimiento := id;
     fecha := match fromisoformat ext fecha_str with
              | Some d => d
              | None => now
              end;
     tecnico := tecnico_; tipo := tipo_; estado := "programado";
     estacion_id := None; notas := ""; variant := v |}.

Definition PreventiveMaintenance_init (ext : External) (id : Z)
    (fecha_str tecnico_ frecuencia : string) (now : Z) : Maintenance :=
  Maintenance_init ext id fecha_str tecnico_ "preventivo" (Preventive frecuencia) now.

Definition CorrectiveMaintenance_init (ext : External) (id : Z)
    (fecha_str tecnico_ descripcion_fallo : string) (now : Z) : Maintenance :=
  Maintenance_init ext id fecha_str tecnico_ "correctivo" (Corrective descripcion_fallo) now.

Definition programar_mantenimiento_preventivo (ext : External) (w : World)
    (id station_id : Z) (fecha_str tecnico_ frecuencia : string) (now : Z)
    : World * Maintenance :=
  let m := PreventiveMaintenance_init ext id fecha_str tecnico_ frecuencia now in
  let m := asignar_estacion m station_id in
  let m := programar m in
  ({| heap := heap w;
      service := set_maintenances (service w)
                   (PyDict.set id m (maintenances (service w))) |}, m).

Definition programar_mantenimiento_correctivo (ext : External) (w : World)
    (id station_id : Z) (fecha_str tecnico_ descripcion_fallo : string) (now : Z)
    : World * Maintenance :=
  let m := CorrectiveMaintenance_init ext id fecha_str tecnico_ descripcion_fallo now in
  let m := asignar_estacion m station_id in
  let m := programar m in
  ({| heap := heap w;
      service := set_maintenances (service w)
                   (PyDict.set id m (maintenances (service w))) |}, m).

Definition iniciar_mantenimiento (w : World) (id : Z)
    : World * option Maintenance :=
  match PyDict.get id (maintenances (service w)) with
  | None => (w, None)
  | Some m =>
      ({| heap := heap w;
          service := set_maintenances (service w)
                       (PyDict.set id (iniciar m) (maintenances (service w))) |},
       Some (iniciar m))
  end.

Definition completar_mantenimiento (w : World) (id : Z) (notas_ : string)
    : World * option Maintenance :=
  match PyDict.get id (maintenances (service w)) with
  | None => (w, None)
  | Some m =>
      ({| heap := heap w;
          service := set_maintenances (service w)
                       (PyDict.set id (marcar_completado m notas_)
                          (maintenances (service w))) |},
       Some (marcar_completado m notas_))
  end.

(** Truth value of an [Optional[int]]: [None] and [0] are false. *)
Definition truthy (x : option Z) : bool :=
  match x with
  | None => false
  | Some n => negb (n =? 0)
  end.

(** The test [m.estacion_id == station_id]. *)
Definition estacion_is (station_id : option Z) (m : Maintenance) : bool :=
  match estacion_id m, station_id with
  | Some a, Some b => a =? b
  | None, None => true
  | _, _ => false
  end.

Definition listar_mantenimientos (w : World) (station_id : option Z)
    : list Maintenance :=
  if truthy station_id
  then List.filter (estacion_is station_id)
         (PyDict.values (maintenances (service w)))
  else PyDict.values (maintenances (service w)).

(** ** Runs of the service *)

(** One call of a state-changing method of [ChargingService], with the
    values it draws from its environment (clock, identifiers, salt). *)
Inductive Op :=
  | OpRegisterUser (new_id : UUID) (salt name email password utype : string)
      (saldo_inicial : float)
  | OpCreateStation (id : Z) (name location : string)
  | OpDeleteStation (station_id : Z)
  | OpAddCharger (station_id charger_id : Z) (charger_type : string)
  | OpStartCharging (user_id : UUID) (station_id : Z) (now : Z)
  | OpEndCharging (user_id : UUID) (now : Z)
  | OpRecargarSaldo (user_id : UUID) (cantidad : float)
  | OpProgramarPreventivo (id station_id : Z)
      (fecha_str tecnico_ frecuencia : string) (now : Z)
  | OpProgramarCorrectivo (id station_id : Z)
      (fecha_str tecnico_ descripcion_fallo : string) (now : Z)
  | OpIniciarMantenimiento (id : Z)
  | OpCompletarMantenimiento (id : Z) (notas_ : string).

Definition step (ext : External) (w : World) (op : Op) : World :=
  match op with
  | OpRegisterUser new_id salt name email password utype saldo_inicial =>
      fst (register_user ext w new_id salt name email password utype saldo_inicial)
  | OpCreateStation id name location => create_station w id name location
  | OpDeleteStation station_id => fst (delete_station w station_id)
  | OpAddCharger station_id charger_id charger_type =>
      fst (add_charger_to_station w station_id charger_id charger_type)
  | OpStartCharging user_id station_id now =>
      fst (start_charging w user_id station_id now)
  | OpEndCharging user_id now => fst (end_charging w user_id now)
  | OpRecargarSaldo user_id cantidad =>
      fst (recargar_saldo_usuario w user_id cantidad)
  | OpProgramarPreventivo id station_id fecha_str tecnico_ frecuencia now =>
      fst (programar_mantenimiento_preventivo ext w id station_id fecha_str
             tecnico_ frecuencia now)
  | OpProgramarCorrectivo id station_id fecha_str tecnico_ descripcion_fallo now =>
      fst (programar_mantenimiento_correctivo ext w id station_id fecha_str
             tecnico_ descripcion_fallo now)
  | OpIniciarMantenimiento id => fst (iniciar_mantenimiento w id)
  | OpCompletarMantenimiento id notas_ => fst (completar_mantenimiento w id notas_)
  end.

Definition run (ext : External) (w : World) (ops : list Op) : World :=
  fold_left (step ext) ops w.

(** ** services/auth_service.py: verification *)

(** [verify_password].  [pwd_context_verify pw hash] is
    [pwd_context.verify(pw, hash)], with [None] standing for an exception,
    which the code turns into [False]. *)
Definition verify_password (ext : External)
    (pwd_context_verify : string → string → option bool)
    (plain_password hashed_password : string) : bool :=
  let password_bytes := take 72 (encode_utf8 ext plain_password) in
  let password_truncated := decode_utf8_ignore ext password_bytes in
  match pwd_context_verify password_truncated hashed_password with
  | Some b => b
  | None => false
  end.

(** ** services/service.py: the operations that only read *)

Definition authenticate_user (ext : External)
    (pwd_context_verify : string → string → option bool)
    (w : World) (email password : string) : option ref :=
  match get_user_by_email w email with
  | None => None
  | Some user =>
      match user_objs (heap w) !! user with
      | Some u =>
          if negb (verify_password ext pwd_context_verify password
                     (password_hash u))
          then None
          else Some user
      | None => None
      end
  end.

Definition list_stations (w : World) : list Station :=
  PyDict.values (stations (service w)).

Definition list_chargers (w : World) : list ref :=
  PyDict.values (chargers (service w)).

Definition get_user_sessions_history (w : World) (user_id : UUID)
    : list ref :=
  match get_user_by_id w user_id with
  | None => []
  | Some user =>
      match user_objs (heap w) !! user with
      | Some u => sessions_history u
      | None => []
      end
  end.

Definition get_mantenimiento (w : World) (id : Z) : option Maintenance :=
  PyDict.get id (maintenances (service w)).

(** The dictionary [get_station_disponibilidad] returns for a known
    station; counts are Python integers. *)
Record Disponibilidad := mkDisponibilidad {
  d_station_id : Z;
  d_station_name : string;
  total_chargers : Z;
  disponibles : Z;
  ocupados : Z;
  porcentaje_disponibilidad : Q
}.

(** [get_station_disponibilidad]: the left injection is the dictionary
    holding only the key ["error"]. *)
Definition get_station_disponibilidad (w : World) (station_id : Z)
    : string + Disponibilidad :=
  match get_station w station_id with
  | None => inl "Estación no encontrada"
  | Some station =>
      let total := Z.of_nat (length (st_chargers station)) in
      let disponibles_ :=
        Z.of_nat (length (get_available_chargers (heap w) station)) in
      let ocupados_ := total - disponibles_ in
      inr {| d_station_id := station_id;
             d_station_name := st_name station;
             total_chargers := total;
             disponibles := disponibles_;
             ocupados := ocupados_;
             porcentaje_disponibilidad :=
               if 0 <? total
               then (inject_Z disponibles_ / inject_Z total * 100)%Q
               else 0%Q |}
  end.

(** The dictionary [get_station_consumo] returns for a known station. *)
Record Consumo := mkConsumo {
  c_station_id : Z;
  c_station_name : string;
  total_sesiones : Z;
  sesiones_activas : Z
}.

(** The test [s.charger in station.chargers] on the session that [s] refers
    to; chargers compare by identity. *)
Definition charger_in (h : Heap) (station : Station) (s : ref) : bool :=
  match session_objs h !! s with
  | Some ses => existsb (Nat.eqb (se_charger ses)) (st_chargers station)
  | None => false
  end.

Definition get_station_consumo (w : World) (station_id : Z)
    : string + Consumo :=
  match get_station w station_id with
  | None => inl "Estación no encontrada"
  | Some station =>
      inr {| c_station_id := station_id;
             c_station_name := st_name station;
             total_sesiones :=
               Z.of_nat (length (List.filter (charger_in (heap w) station)
                                   (PyDict.values (sessions (service w)))));
             sesiones_activas :=
               Z.of_nat (length (List.filter (status_is (heap w) "ocupado")
                                   (st_chargers station))) |}
  end.

(** * Vocabulary of the properties *)

(** ** Signs of floating-point values *)

(** A value of the IEEE 754 specification that is not below zero: NaN,
    either zero, [+inf] or a positive number. *)
Definition sf_not_neg (x : spec_float) : Prop :=
  match x with
  | S754_infinity true | S754_finite true _ _ => False
  | _ => True
  end.

(** A value that is at least zero: the same without NaN. *)
Definition sf_nonneg (x : spec_float) : Prop :=
  match x with
  | S754_zero _ | S754_infinity false | S754_finite false _ _ => True
  | _ => False
  end.

(** [not (x < 0)] and [0 <= x] as Python evaluates them. They differ on NaN
    only, which compares false with everything. *)
Definition not_below_zero (x : float) : Prop := (x <? 0)%float = false.

Definition fnonneg (x : float) : Prop := (0 <=? x)%float = true.

(** The rational number a finite float stands for (0 for the others). *)
Definition exact_value (x : float) : Q :=
  match Prim2SF x with
  | S754_finite s m e =>
      ((if s then -1 else 1) * inject_Z (Z.pos m) * Qpower 2 e)%Q
  | _ => 0%Q
  end.

(** ** Scenarios and predicates *)

(** A charger counts as free for [User.start_session] under either spelling
    of the status. *)
Definition is_available (c : Charger) : Prop :=
  ch_status c = "available" ∨ ch_status c = "disponible".

(** The duration as the specification words it: the whole minutes in the
    total time elapsed from [start_time] to [end_time], or to [now] while the
    session is open. *)
Definition elapsed_minutes_spec (self : Session) (now : Z) : Z :=
  (match end_time self with Some e => e | None => now end - start_time self)
  / (60 * us_per_second).

(** A stand-in for the library functions, for running examples: ASCII
    passwords, a hash that only tags its input, and dates that never parse. *)
Definition ext0 : External :=
  {| encode_utf8 := list_byte_of_string;
     decode_utf8_ignore := string_of_list_byte;
     pwd_context_hash := fun salt pw => ("$argon2id$" ++ salt ++ "$" ++ pw)%string;
     fromisoformat := fun _ => None |}.

(** The end-to-end scenario: station 1 with the single charger 101, and the
    user Ana (identifier 7) registered with a balance of 100. *)
Definition w_station : World :=
  fst (add_charger_to_station
         (create_station world0 1 "Estacion Central" "Vigo") 1 101 "rapido").

Definition w_ana : World :=
  fst (register_user ext0 w_station 7 "salt" "Ana" "ana@example.com"
         "password123" "individual" 100).

(** Instant at which Ana starts charging in the examples. *)
Definition t0 : Z := 1700000000 * us_per_second.

Definition w_charging : World := fst (start_charging w_ana 7 1 t0).

(** Instant of a second request by Ana, five minutes later. *)
Definition t1 : Z := t0 + 300 * us_per_second.

(** The guard the specification asks of [start_charging]: for a user who
    holds an active session the call returns no session and changes neither
    the user's [active_session] nor the registry's index entry. *)
Definition rejects_second_session (w : World) (user_id : UUID)
    (station_id now : Z) : Prop :=
  ∀ user u s0,
    get_user_by_id w user_id = Some user →
    user_objs (heap w) !! user = Some u →
    active_session u = Some s0 →
    snd (start_charging w user_id station_id now) = None
    ∧ (active_session
         <$> user_objs (heap (fst (start_charging w user_id station_id now)))
             !! user) = Some (Some s0)
    ∧ PyDict.get user_id
        (sessions (service (fst (start_charging w user_id station_id now))))
      = PyDict.get user_id (sessions (service w)).

(** Instant at which Ana stops charging in the examples: ten minutes in. *)
Definition t_end : Z := t0 + 600 * us_per_second.

(** The operations that touch a balance, each aimed at one user object. *)
Inductive BalanceOp :=
  | BRecargar (user : ref) (cantidad : float)
  | BDescontar (user : ref) (cantidad : float)
  | BEndSession (user : ref) (now : Z).

(** A method of [User] that only rewrites the user itself, run on the
    object [user] of the store. *)
Definition on_user (h : Heap) (user : ref) (f : User → User) : Heap :=
  set_user_objs h (alter f user (user_objs h)).

Definition balance_step (h : Heap) (op : BalanceOp) : Heap :=
  match op with
  | BRecargar user a => on_user h user (fun u => fst (recargar_saldo u a))
  | BDescontar user a => on_user h user (fun u => fst (descontar_saldo u a))
  | BEndSession user now => end_session h user now
  end.

Definition balance_run (h : Heap) (ops : list BalanceOp) : Heap :=
  fold_left balance_step ops h.

(** Every user of the store has a balance of at least zero:
    [0 <= u.saldo] holds. *)
Definition balances_nonneg (h : Heap) : Prop :=
  Forall (fun u => fnonneg (saldo u)) (user_objs h).

(** No user of the store has a balance below zero: [u.saldo < 0] fails. *)
Definition balances_not_below_zero (h : Heap) : Prop :=
  Forall (fun u => not_below_zero (saldo u)) (user_objs h).

(** The amount of a recharge or a debit is a number: neither NaN nor
    infinite. *)
Definition finite_amount (op : BalanceOp) : Prop :=
  match op with
  | BRecargar _ a | BDescontar _ a => is_finite a = true
  | BEndSession _ _ => True
  end.

(** The decimal reading of [recargar_saldo]: a positive amount is added to
    the balance exactly. *)
Definition recharge_adds_exactly (u : User) (a : float) : Prop :=
  (0 <? a)%float = true →
  snd (recargar_saldo u a) = true
  ∧ (exact_value (saldo (fst (recargar_saldo u a)))
     == exact_value (saldo u) + exact_value a)%Q.






(** Some stored user record carries the email. *)
Definition email_registered (w : World) (email : string) : Prop :=
  ∃ r u,
    In r (PyDict.values (users (service w)))
    ∧ user_objs (heap w) !! r = Some u
    ∧ u_email u = email.

(** The cascade the specification expects of [delete_station]: once the
    station is deleted, none of its chargers can be fetched by id. *)
Definition delete_station_drops_chargers (w : World) (station_id : Z) : Prop :=
  ∀ st c ch,
    get_station w station_id = Some st →
    In c (st_chargers st) →
    charger_objs (heap w) !! c = Some ch →
    snd (delete_station w station_id) = true →
    get_charger (fst (delete_station w station_id)) (ch_id ch) = None.

(** [add_charger_to_station] called with the charger id. *)
Definition adds_charger_id (charger_id : Z) (op : Op) : Prop :=
  match op with
  | OpAddCharger _ c _ => c = charger_id
  | _ => False
  end.

(** The two operations that put a new value, or none, under a station id. *)
Definition replaces_station (station_id : Z) (op : Op) : Prop :=
  match op with
  | OpCreateStation s _ _ | OpDeleteStation s => s = station_id
  | _ => False
  end.

(** Two facts about the states the service builds: every user is indexed
    under its own identifier, and an active session is a session of the
    store. *)
Definition indexed_users_ok (w : World) : Prop :=
  ∀ k r,
    get_user_by_id w k = Some r →
    ∃ u, user_objs (heap w) !! r = Some u ∧ u_id u = k.

Definition active_sessions_ok (h : Heap) : Prop :=
  Forall
    (fun u => ∀ s, active_session u = Some s →
                   (s < length (session_objs h))%nat)
    (user_objs h).

(** A call of one of the two methods of [Charger]. *)
Inductive ChargerOp :=
  | CStart
  | CStop.

Definition charger_step (c : Charger) (op : ChargerOp) : Charger :=
  match op with
  | CStart => start_charge c
  | CStop => stop_charge c
  end.

Definition charger_run (c : Charger) (ops : list ChargerOp) : Charger :=
  fold_left charger_step ops c.

(** Every charger object of the store has the status ["available"]. *)
Definition all_available (h : Heap) : Prop :=
  Forall (fun ch => ch_status ch = "available") (charger_objs h).

(** Every charger listed by a station of the registry is an object of the
    store. *)
Definition station_chargers_ok (w : World) : Prop :=
  ∀ sid st,
    get_station w sid = Some st →
    Forall (fun c => is_Some (charger_objs (heap w) !! c)) (st_chargers st).

(** A run of the service: station 1 gets chargers 101 and 102, Ana
    registers and starts charging there. *)
Definition ops_charging : list Op :=
  [OpCreateStation 1 "Estacion Central" "Vigo";
   OpAddCharger 1 101 "rapido"; OpAddCharger 1 102 "normal";
   OpRegisterUser 7 "salt" "Ana" "ana@example.com" "password123"
     "individual" 100;
   OpStartCharging 7 1 t0].

(** Station 1 as that run leaves it. *)
Definition station1 : Station :=
  {| st_id := 1; st_name := "Estacion Central"; st_location := "Vigo";
     st_chargers := [0%nat; 1%nat] |}.

(** A registration that asks for an initial balance below zero. *)
Definition negative_registration (op : Op) : Prop :=
  match op with
  | OpRegisterUser _ _ _ _ _ _ saldo_inicial =>
      (saldo_inicial <? 0)%float = true
  | _ => False
  end.

(** The amounts a run hands to the service are numbers the request schemas
    let through: an initial balance of at least zero, a recharge that is not
    NaN. *)
Definition sane_amounts (op : Op) : Prop :=
  match op with
  | OpRegisterUser _ _ _ _ _ _ saldo_inicial => fnonneg saldo_inicial
  | OpRecargarSaldo _ a => is_nan a = false
  | _ => True
  end.

(** A stand-in for [pwd_context.verify] matching [ext0]'s hash under the
    salt ["salt"]. *)
Definition verify0 (pw hash : string) : option bool :=
  Some (String.eqb hash (pwd_context_hash ext0 "salt" pw)).

(** A password of 72 bytes, to be extended in two ways. *)
Definition pw72 : string :=
  "0123456789abcdefghijklmnopqrstuvwxyz0123456789abcdefghijklmnopqrstuvwxyz".

(** What may change in a user object over time: only the balance, the
    active session, and the history, which only grows at its end. *)
Definition user_evolves (u u' : User) : Prop :=
  u_id u' = u_id u
  ∧ u_name u' = u_name u
  ∧ u_email u' = u_email u
  ∧ password_hash u' = password_hash u
  ∧ user_type u' = user_type u
  ∧ sessions_history u `prefix_of` sessions_history u'.

(** No two identifiers of the user index lead to users with the same
    email. *)
Definition emails_unique (w : World) : Prop :=
  ∀ k1 k2 r1 r2 u1 u2,
    get_user_by_id w k1 = Some r1 →
    get_user_by_id w k2 = Some r2 →
    user_objs (heap w) !! r1 = Some u1 →
    user_objs (heap w) !! r2 = Some u2 →
    u_email u1 = u_email u2 →
    k1 = k2.

(** A registration that draws the identifier [k]. *)
Definition registers (k : UUID) (op : Op) : Prop :=
  match op with
  | OpRegisterUser new_id _ _ _ _ _ _ => new_id = k
  | _ => False
  end.

(** Two users registered after the scenario's station is set up. *)
Definition ops_two_users : list Op :=
  [OpRegisterUser 7 "salt" "Ana" "ana@example.com" "password123"
     "individual" 100;
   OpRegisterUser 8 "pepper" "Luis" "luis@example.com" "password456"
     "empresa" 50;
   OpRegisterUser 9 "salt" "Ana B" "ana@example.com" "password789"
     "individual" 10].

(** * Properties *)

(** ** Facts about binary64 arithmetic *)

(** The sign of a sum and of a difference, read off the IEEE 754
    specification of the operations ([SpecFloat]) and carried over to the
    primitive floats. *)

Lemma Prim2SF_zero : Prim2SF 0 = S754_zero false.
Proof. reflexivity. Qed.

Lemma SFltb_zero_r x : SFltb x (S754_zero false) = false ↔ sf_not_neg x.
Proof. destruct x as [[]|[]| |[] m e]; unfold SFltb; simpl; naive_solver. Qed.

Lemma SFleb_zero_l x : SFleb (S754_zero false) x = true ↔ sf_nonneg x.
Proof. destruct x as [[]|[]| |[] m e]; unfold SFleb; simpl; naive_solver. Qed.

Lemma digits2_pos_bounds (m : positive) :
  2 ^ (Z.pos (digits2_pos m) - 1) <= Z.pos m < 2 ^ Z.pos (digits2_pos m).
Proof.
  induction m as [m IH|m IH|]; simpl digits2_pos.
  - rewrite Pos2Z.inj_succ.
    replace (Z.succ (Z.pos (digits2_pos m)) - 1) with (Z.succ (Z.pos (digits2_pos m) - 1)) by lia.
    rewrite !Z.pow_succ_r by lia. lia.
  - rewrite Pos2Z.inj_succ.
    replace (Z.succ (Z.pos (digits2_pos m)) - 1) with (Z.succ (Z.pos (digits2_pos m) - 1)) by lia.
    rewrite !Z.pow_succ_r by lia. lia.
  - simpl. lia.
Qed.

Lemma iter_xO_value (m d : positive) :
  Z.pos (Pos.iter xO m d) = Z.pos m * 2 ^ Z.pos d.
Proof.
  induction d as [|d IH] using Pos.peano_ind.
  - simpl. lia.
  - rewrite Pos.iter_succ, Pos2Z.inj_succ, Z.pow_succ_r by lia.
    rewrite Pos2Z.inj_xO, IH. lia.
Qed.

Lemma bounded_inv m e :
  bounded prec emax m e = true →
  Z.pos (digits2_pos m) <= 53 ∧ -1074 <= e
  ∧ (e = -1074 ∨ Z.pos (digits2_pos m) = 53).
Proof.
  unfold bounded, canonical_mantissa, fexp, SpecFloat.emin, prec, emax.
  intros H. apply andb_prop in H as [H _]. apply Z.eqb_eq in H. lia.
Qed.

Lemma shr_record_of_loc_m m l : shr_m (shr_record_of_loc m l) = m.
Proof. by destruct l as [|[]]. Qed.

Lemma shr_1_nonneg mrs : 0 <= shr_m mrs → 0 <= shr_m (shr_1 mrs).
Proof. destruct mrs as [[|[p|p|]|p] r s]; simpl; lia. Qed.

Lemma iter_pos_shr_1_nonneg p mrs :
  0 <= shr_m mrs → 0 <= shr_m (SpecFloat.iter_pos shr_1 p mrs).
Proof.
  revert mrs. induction p as [p IH|p IH|]; intros mrs H; simpl.
  - apply IH, IH. by apply shr_1_nonneg.
  - by apply IH, IH.
  - by apply shr_1_nonneg.
Qed.

Lemma shr_fexp_nonneg m e l :
  0 <= m → 0 <= shr_m (fst (shr_fexp prec emax m e l)).
Proof.
  intros H. unfold shr_fexp, shr.
  destruct (fexp prec emax (Zdigits2 m + e) - e) as [|p|p]; simpl;
    rewrite ?shr_record_of_loc_m; try done.
  apply iter_pos_shr_1_nonneg. by rewrite shr_record_of_loc_m.
Qed.

Lemma round_nearest_even_nonneg m l : 0 <= m → 0 <= round_nearest_even m l.
Proof.
  intros H. unfold round_nearest_even.
  destruct l as [|[]]; try lia. destruct (Z.even m); lia.
Qed.

(** Rounding a non-negative mantissa gives a zero, a finite number or an
    infinity of the given sign, never a NaN. *)
Lemma binary_round_aux_class sx mx ex lx :
  0 <= mx →
  match binary_round_aux prec emax sx mx ex lx with
  | S754_nan => False
  | S754_zero s | S754_infinity s | S754_finite s _ _ => s = sx
  end.
Proof.
  intros H. unfold binary_round_aux.
  pose proof (shr_fexp_nonneg mx ex lx H) as H1.
  destruct (shr_fexp prec emax mx ex lx) as [mrs' e']. simpl in H1.
  pose proof (shr_fexp_nonneg
                (round_nearest_even (shr_m mrs') (loc_of_shr_record mrs')) e'
                loc_Exact (round_nearest_even_nonneg _ _ H1)) as H2.
  destruct (shr_fexp prec emax _ e' loc_Exact) as [mrs'' e'']. simpl in H2.
  destruct (shr_m mrs'') as [|p|p]; [done| |lia].
  by destruct (e'' <=? emax - prec).
Qed.

Lemma binary_normalize_nonneg m e :
  0 <= m → sf_nonneg (binary_normalize prec emax m e false).
Proof.
  intros H. destruct m as [|p|p]; [done| |lia]. simpl.
  unfold binary_round.
  destruct (shl_align p e _) as [mz ez].
  pose proof (binary_round_aux_class false (Z.pos mz) ez loc_Exact
                ltac:(lia)) as Hc.
  destruct (binary_round_aux prec emax false (Z.pos mz) ez loc_Exact);
    simpl in *; by subst.
Qed.

Lemma sf_nonneg_not_neg x : sf_nonneg x → sf_not_neg x.
Proof. by destruct x as [[]|[]| |[] m e]. Qed.

(** Adding an amount that is not [<= 0] (so positive, or NaN) to a value
    that is not below zero gives a value that is not below zero. *)
Lemma SFadd_not_neg x a :
  sf_not_neg x → SFleb a (S754_zero false) = false →
  sf_not_neg (SF64add x a).
Proof.
  intros Hx Ha. unfold SF64add, SFadd.
  destruct x as [sx|[]| |[] mx ex]; try done;
    destruct a as [sa|[]| |[] ma ea]; try done;
    try (by destruct sx).
  apply sf_nonneg_not_neg, binary_normalize_nonneg. simpl. lia.
Qed.

Lemma SFadd_nonneg x a :
  sf_nonneg x → SFltb (S754_zero false) a = true →
  sf_nonneg (SF64add x a).
Proof.
  intros Hx Ha. unfold SF64add, SFadd.
  destruct x as [sx|[]| |[] mx ex]; try done;
    destruct a as [sa|[]| |[] ma ea]; try done;
    try (by destruct sx).
  apply binary_normalize_nonneg. simpl. lia.
Qed.

Lemma shl_align_same m e : shl_align m e e = (m, e).
Proof. unfold shl_align. by rewrite Z.sub_diag. Qed.

Lemma shl_align_lower m e e' :
  e' < e → Z.pos (fst (shl_align m e e')) = Z.pos m * 2 ^ (e - e').
Proof.
  intros H. unfold shl_align.
  destruct (e' - e) as [|d|d] eqn:Hd; try lia. simpl.
  rewrite iter_xO_value. f_equal. f_equal. lia.
Qed.

(** On valid non-negative finite numbers, [a <= x] makes the aligned
    mantissa of [x] at least that of [a]. *)
Lemma aligned_mantissa_le mx ex ma ea :
  bounded prec emax mx ex = true →
  bounded prec emax ma ea = true →
  SFleb (S754_finite false ma ea) (S754_finite false mx ex) = true →
  Z.pos (fst (shl_align ma ea (Z.min ex ea)))
  <= Z.pos (fst (shl_align mx ex (Z.min ex ea))).
Proof.
  intros Hx Ha Hle. unfold SFleb in Hle. simpl in Hle.
  apply bounded_inv in Hx as (Hdx & Hex & Hnx).
  apply bounded_inv in Ha as (Hda & Hea & Hna).
  pose proof (digits2_pos_bounds mx) as Bx.
  pose proof (digits2_pos_bounds ma) as Ba.
  destruct (Z.compare_spec ea ex) as [Heq|Hlt|Hgt]; [| |done].
  - subst ea. rewrite Z.min_id, !shl_align_same. simpl.
    rewrite Pos.compare_cont_spec in Hle. simpl in Hle.
    destruct (Pos.compare_spec ma mx); try done; lia.
  - rewrite Z.min_r by lia. rewrite shl_align_same. simpl.
    rewrite shl_align_lower by lia.
    destruct Hnx as [?|Hnx]; [lia|]. rewrite Hnx in Bx.
    assert (Z.pos ma < 2 ^ 53) as Hma.
    { eapply Z.lt_le_trans; [apply Ba|]. apply Z.pow_le_mono_r; lia. }
    assert (2 ^ 1 <= 2 ^ (ex - ea)) as Hp by (apply Z.pow_le_mono_r; lia).
    change (2 ^ (53 - 1)) with 4503599627370496 in Bx.
    change (2 ^ 53) with 9007199254740992 in Hma.
    change (2 ^ 1) with 2 in Hp. nia.
Qed.

Lemma SFsub_nonneg x a :
  valid_binary x = true → valid_binary a = true →
  sf_nonneg x → SFleb a x = true →
  a ≠ S754_infinity false →
  sf_nonneg (SF64sub x a).
Proof.
  intros Vx Va Hx Hle Hinf. unfold SF64sub, SFsub.
  destruct x as [sx|[]| |[] mx ex]; try done;
    destruct a as [sa|[]| |[] ma ea]; try done;
    try (by destruct sx); try (by destruct sx, sa).
  - apply binary_normalize_nonneg. simpl. lia.
  - apply binary_normalize_nonneg. simpl.
    pose proof (aligned_mantissa_le mx ex ma ea Vx Va Hle). lia.
Qed.

Lemma SFsub_not_neg x a :
  valid_binary x = true → valid_binary a = true →
  sf_not_neg x → SFleb a x = true →
  sf_not_neg (SF64sub x a).
Proof.
  intros Vx Va Hx Hle.
  destruct a as [sa|[]| |[] ma ea] eqn:Ea;
    try (apply sf_nonneg_not_neg, SFsub_nonneg; try done;
         by destruct x as [sx|[]| |[] mx ex]).
  by destruct x as [sx|[]| |[] mx ex].
Qed.

(** ** Primitive floats *)

Lemma not_below_zero_spec x : not_below_zero x ↔ sf_not_neg (Prim2SF x).
Proof.
  unfold not_below_zero. rewrite FloatAxioms.ltb_spec, Prim2SF_zero. apply SFltb_zero_r.
Qed.

Lemma fnonneg_spec x : fnonneg x ↔ sf_nonneg (Prim2SF x).
Proof.
  unfold fnonneg. rewrite FloatAxioms.leb_spec, Prim2SF_zero. apply SFleb_zero_l.
Qed.

Lemma SFeqb_refl x : x ≠ S754_nan → SFeqb x x = true.
Proof.
  intros Hx. unfold SFeqb.
  destruct x as [[]|[]| |[] m e]; simpl; try done;
    by rewrite Z.compare_refl, Pos.compare_cont_refl.
Qed.

Lemma is_nan_spec x : is_nan x = true ↔ Prim2SF x = S754_nan.
Proof.
  unfold is_nan. rewrite FloatAxioms.eqb_spec. split.
  - intros H. destruct (Prim2SF x) eqn:E; try done;
      rewrite SFeqb_refl in H; done.
  - by intros ->.
Qed.

Lemma is_infinity_spec x :
  is_infinity x = true ↔ ∃ s, Prim2SF x = S754_infinity s.
Proof.
  unfold is_infinity. rewrite FloatAxioms.eqb_spec, FloatAxioms.abs_spec.
  change (Prim2SF infinity) with (S754_infinity false).
  destruct (Prim2SF x) as [[]|[]| |[] m e]; unfold SFeqb; simpl;
    split; try done; try (intros [? ?]; done); eauto.
Qed.

Lemma add_not_below_zero x a :
  not_below_zero x → (a <=? 0)%float = false → not_below_zero (x + a).
Proof.
  rewrite !not_below_zero_spec, FloatAxioms.leb_spec, FloatAxioms.add_spec, Prim2SF_zero.
  apply SFadd_not_neg.
Qed.

Lemma sub_not_below_zero x a :
  not_below_zero x → (a <=? x)%float = true → not_below_zero (x - a).
Proof.
  rewrite !not_below_zero_spec, FloatAxioms.leb_spec, FloatAxioms.sub_spec.
  apply SFsub_not_neg; apply Prim2SF_valid.
Qed.

Lemma add_nonneg x a :
  fnonneg x → (a <=? 0)%float = false → is_nan a = false → fnonneg (x + a).
Proof.
  rewrite !fnonneg_spec, FloatAxioms.leb_spec, FloatAxioms.add_spec, Prim2SF_zero.
  intros Hx Ha Hn. apply SFadd_nonneg; [done|].
  assert (Prim2SF a ≠ S754_nan) as Hnn.
  { intros E. apply is_nan_spec in E. congruence. }
  by destruct (Prim2SF a) as [[]|[]| |[] m e].
Qed.

Lemma sub_nonneg x a :
  fnonneg x → (a <=? x)%float = true → is_infinity a = false →
  fnonneg (x - a).
Proof.
  rewrite !fnonneg_spec, FloatAxioms.leb_spec, FloatAxioms.sub_spec.
  intros Hx Ha Hi. apply SFsub_nonneg; try apply Prim2SF_valid; try done.
  intros E. assert (is_infinity a = true) by (apply is_infinity_spec; eauto).
  congruence.
Qed.

Lemma ltb_zero_leb_false a : (0 <? a)%float = true → (a <=? 0)%float = false.
Proof.
  rewrite FloatAxioms.ltb_spec, FloatAxioms.leb_spec, Prim2SF_zero.
  by destruct (Prim2SF a) as [[]|[]| |[] m e].
Qed.

Lemma neg_leb_nonneg a x :
  (a <? 0)%float = true → (0 <=? x)%float = true → (a <=? x)%float = true.
Proof.
  rewrite FloatAxioms.ltb_spec, !FloatAxioms.leb_spec, Prim2SF_zero.
  destruct (Prim2SF a) as [[]|[]| |[] m e]; try done;
    by destruct (Prim2SF x) as [[]|[]| |[] m' e'].
Qed.

Lemma not_below_zero_cases x :
  not_below_zero x ↔ is_nan x = true ∨ fnonneg x.
Proof.
  rewrite not_below_zero_spec, is_nan_spec, fnonneg_spec.
  destruct (Prim2SF x) as [[]|[]| |[] m e]; simpl;
    intuition (try done; try congruence).
Qed.

(** ** Facts about dictionaries *)

Section dict_facts.
Context {K V : Type} `{EqDecision K}.
Implicit Types (k : K) (v : V) (d : dict K V).
Import PyDict.

Lemma get_set_eq k v d : get k (set k v d) = Some v.
Proof.
  induction d as [|[k' v'] d IH]; simpl.
  - by rewrite decide_True.
  - destruct (decide (k = k')) as [->|Hne]; simpl.
    + by rewrite decide_True.
    + by rewrite decide_False.
Qed.

Lemma get_set_ne k k' v d : k ≠ k' → get k' (set k v d) = get k' d.
Proof.
  intros Hne. induction d as [|[k0 v0] d IH]; simpl.
  - by rewrite decide_False.
  - destruct (decide (k = k0)) as [->|Hk]; simpl.
    + by rewrite !decide_False.
    + destruct (decide (k' = k0)); auto.
Qed.

Lemma get_set_is_Some k k' v d :
  is_Some (get k' d) → is_Some (get k' (set k v d)).
Proof.
  intros Hs. destruct (decide (k = k')) as [->|Hne].
  - rewrite get_set_eq. eauto.
  - by rewrite get_set_ne.
Qed.

Lemma set_fresh k v d : get k d = None → set k v d = d ++ [(k, v)].
Proof.
  induction d as [|[k' v'] d IH]; simpl; [done|].
  destruct (decide (k = k')); [done|]. intros Hg. by rewrite IH.
Qed.

Lemma get_del_ne k k' d : k ≠ k' → get k' (del k d) = get k' d.
Proof.
  intros Hne. induction d as [|[k0 v0] d IH]; simpl; [done|].
  destruct (decide (k = k0)) as [->|Hk]; simpl.
  - by rewrite decide_False.
  - destruct (decide (k' = k0)); auto.
Qed.

Lemma get_del_eq k d : get k (del k d) = None.
Proof.
  induction d as [|[k0 v0] d IH]; simpl; [done|].
  destruct (decide (k = k0)) as [->|Hk]; simpl; [done|].
  by rewrite decide_False.
Qed.

Lemma get_Some_In k v d : get k d = Some v → In (k, v) d.
Proof.
  induction d as [|[k' v'] d IH]; simpl; [done|].
  destruct (decide (k = k')) as [->|Hk].
  - intros [= ->]. by left.
  - intros Hg. right. auto.
Qed.

Lemma contains_true k d : contains k d = true ↔ is_Some (get k d).
Proof.
  unfold contains. destruct (get k d); split; eauto; try done.
Qed.
End dict_facts.

(** ** Chargers *)

Lemma start_charge_available c :
  ch_status c = "available" → start_charge c = c.
Proof. intros Hs. unfold start_charge. by rewrite Hs. Qed.

Lemma stop_charge_not_ocupado c :
  ch_status c ≠ "ocupado" → stop_charge c = c.
Proof.
  intros Hs. unfold stop_charge.
  destruct (String.eqb_spec (ch_status c) "ocupado"); [done|done].
Qed.

(** C6. On a charger whose status is available (["available"], the
    constructor's default, or ["disponible"]), [start_charge] followed by
    [stop_charge] gives back the status it started from, and [stop_charge]
    alone changes nothing. *)
Theorem start_then_stop_restores_available (c : Charger) :
  is_available c →
  ch_status (stop_charge (start_charge c)) = ch_status c
  ∧ stop_charge c = c.
Proof.
  intros [Hs|Hs].
  - rewrite (start_charge_available c Hs).
    rewrite stop_charge_not_ocupado; [done|]. by rewrite Hs.
  - split.
    + unfold start_charge. rewrite Hs. reflexivity.
    + apply stop_charge_not_ocupado. by rewrite Hs.
Qed.

Lemma start_then_stop_restores_available_witness :
  ch_status (stop_charge (start_charge (Charger_init 101 "normal")))
    = "available"
  ∧ stop_charge (Charger_init 101 "normal") = Charger_init 101 "normal".
Proof.
  apply (start_then_stop_restores_available (Charger_init 101 "normal")).
  left. reflexivity.
Defined.

(** ** Balance *)

(** The decimal reading of C9 fails: on a balance of 1e16 a recharge of 1
    returns [True] and leaves the balance at 1e16, since the exact sum is not
    a double. *)
Lemma recargar_saldo_exact_counterexample :
  snd (recargar_saldo
         (User_init 7 "Ana" "ana@example.com" "h" "individual" 1e16) 1) = true
  ∧ saldo (fst (recargar_saldo
                  (User_init 7 "Ana" "ana@example.com" "h" "individual" 1e16)
                  1)) = 1e16%float
  ∧ ¬ recharge_adds_exactly
        (User_init 7 "Ana" "ana@example.com" "h" "individual" 1e16) 1.
Proof.
  split; [reflexivity|]. split; [reflexivity|].
  intros H. destruct H as [_ H]; [reflexivity|].
  vm_compute in H. discriminate H.
Qed.

(** C9. [recargar_saldo] with an amount that is zero or negative
    ([cantidad <= 0] holds) returns [False] and leaves the user as it was;
    with a positive amount it returns [True] and changes only the balance,
    which becomes the double-precision sum of the old balance and the
    amount. *)
Theorem recargar_saldo_spec (u : User) (a : float) :
  ((a <=? 0)%float = true → recargar_saldo u a = (u, false))
  ∧ ((0 <? a)%float = true →
     recargar_saldo u a = (set_saldo u (saldo u + a)%float, true)
     ∧ saldo (fst (recargar_saldo u a)) = (saldo u + a)%float).
Proof.
  unfold recargar_saldo. split.
  - intros Hle. by rewrite Hle.
  - intros Hlt. by rewrite (ltb_zero_leb_false a Hlt).
Qed.

Lemma recargar_saldo_spec_witness :
  recargar_saldo (User_init 7 "Ana" "ana@example.com" "h" "individual" 100)
    (-5) = (User_init 7 "Ana" "ana@example.com" "h" "individual" 100, false)
  ∧ recargar_saldo
      (User_init 7 "Ana" "ana@example.com" "h" "individual" 100) 20
    = (User_init 7 "Ana" "ana@example.com" "h" "individual" 120, true).
Proof.
  split.
  - apply (recargar_saldo_spec
             (User_init 7 "Ana" "ana@example.com" "h" "individual" 100) (-5)).
    reflexivity.
  - apply (recargar_saldo_spec
             (User_init 7 "Ana" "ana@example.com" "h" "individual" 100) 20).
    reflexivity.
Defined.

(** An amount that is NaN passes the guard, as [nan <= 0] is false: the
    call returns [True] and the balance becomes NaN. *)
Lemma recargar_saldo_nan (u : User) (a : float) :
  is_nan a = true →
  snd (recargar_saldo u a) = true
  ∧ is_nan (saldo (fst (recargar_saldo u a))) = true.
Proof.
  intros Ha. apply is_nan_spec in Ha. unfold recargar_saldo.
  assert ((a <=? 0)%float = false) as E.
  { rewrite FloatAxioms.leb_spec, Ha. reflexivity. }
  rewrite E. simpl. split; [done|].
  apply is_nan_spec. rewrite FloatAxioms.add_spec, Ha.
  by destruct (Prim2SF (saldo u)) as [[]|[]| |[] m e].
Qed.

(** ** Sessions *)

Lemma td_seconds_range a b :
  0 <= td_seconds (datetime_sub a b) < 86400.
Proof.
  unfold datetime_sub, us_per_day, us_per_second. simpl.
  pose proof (Z.mod_pos_bound (a - b) (86400 * 1000000) ltac:(lia)) as Hm.
  split.
  - apply Z.div_pos; lia.
  - apply Z.div_lt_upper_bound; lia.
Qed.

(** X1. Whatever the session and the instant, even with an end before the
    start, [get_duration] is at least 0 and below 1440, the minutes of one
    day. *)
Lemma get_duration_range (self : Session) (now : Z) :
  0 <= get_duration self now < 1440.
Proof.
  unfold get_duration.
  destruct (end_time self) as [e|].
  - pose proof (td_seconds_range e (start_time self)) as Hr.
    split; [apply Z.div_pos; lia | apply Z.div_lt_upper_bound; lia].
  - pose proof (td_seconds_range now (start_time self)) as Hr.
    split; [apply Z.div_pos; lia | apply Z.div_lt_upper_bound; lia].
Qed.

Lemma td_seconds_first_day a b :
  0 <= a - b < us_per_day →
  td_seconds (datetime_sub a b) / 60 = (a - b) / (60 * us_per_second).
Proof.
  intros Hr. unfold datetime_sub. simpl.
  rewrite Z.mod_small by lia.
  rewrite Z.div_div by (unfold us_per_second; lia).
  reflexivity.
Qed.

(** X2. While less than a day has elapsed since the start (and the end is
    not before the start), [get_duration] is the number of whole minutes
    elapsed. *)
Lemma get_duration_first_day (self : Session) (now : Z) :
  0 <= match end_time self with Some e => e | None => now end - start_time self
    < us_per_day →
  get_duration self now = elapsed_minutes_spec self now.
Proof.
  unfold get_duration, elapsed_minutes_spec.
  destruct (end_time self); apply td_seconds_first_day.
Qed.

(** C3 (the code departs from it). A session opened at instant 0 and still
    open: one minute before a full day has elapsed [get_duration] reads 1439,
    at the full day it reads 0, where the elapsed time holds 1440 whole
    minutes.  The reading is neither the floor of the elapsed seconds over 60
    nor non-decreasing. *)
Theorem get_duration_drops_whole_days :
  get_duration (Session_init 0%nat 0%nat 0) (us_per_day - 60 * us_per_second) = 1439
  ∧ get_duration (Session_init 0%nat 0%nat 0) us_per_day = 0
  ∧ elapsed_minutes_spec (Session_init 0%nat 0%nat 0) us_per_day = 1440.
Proof. repeat split; vm_compute; reflexivity. Qed.

(** ** Maintenances *)

(** C10. Listing the maintenances with the station filter 0 is the same as
    listing them with no filter: every maintenance of the registry is
    returned, in registry order. *)
Theorem listar_mantenimientos_station_zero (w : World) :
  listar_mantenimientos w (Some 0) = listar_mantenimientos w None
  ∧ listar_mantenimientos w (Some 0)
    = PyDict.values (maintenances (service w)).
Proof. split; reflexivity. Qed.

(** The filter 0 does return maintenances of other stations: here one
    scheduled on station 2. *)
Example listar_mantenimientos_station_zero_other :
  let w := fst (programar_mantenimiento_preventivo ext0 world0 5001 2
                  "2025-11-20" "Ana" "mensual" t0) in
  map estacion_id (listar_mantenimientos w (Some 0)) = [Some 2]
  ∧ map estacion_id (listar_mantenimientos w (Some 2)) = [Some 2]
  ∧ listar_mantenimientos w (Some 1) = [].
Proof. repeat split; reflexivity. Qed.

(** ** Starting a session *)

Lemma alter_fixed {A} (f : A → A) (l : list A) (i : nat) (x : A) :
  l !! i = Some x → f x = x → alter f i l = l.
Proof.
  intros Hl Hf. apply list_eq. intros j.
  destruct (decide (i = j)) as [<-|Hne].
  - rewrite list_lookup_alter_eq, Hl. simpl. by rewrite Hf.
  - by rewrite list_lookup_alter_ne.
Qed.

Lemma get_available_chargers_status h st c :
  In c (get_available_chargers h st) →
  ∃ ch, charger_objs h !! c = Some ch ∧ ch_status ch = "available".
Proof.
  unfold get_available_chargers. intros Hin.
  apply filter_In in Hin as [_ Hst]. unfold status_is in Hst.
  destruct (charger_objs h !! c) as [ch|]; [|done].
  exists ch. split; [done|]. by apply String.eqb_eq.
Qed.

(** What [User.start_session] does on a charger whose status is
    ["available"]: the charger store is untouched, because
    [Charger.start_charge] only reacts to ["disponible"]. *)
Lemma start_session_available h self c now u ch :
  user_objs h !! self = Some u →
  charger_objs h !! c = Some ch →
  ch_status ch = "available" →
  start_session h self c now =
    ({| charger_objs := charger_objs h;
        user_objs :=
          <[self := set_active_session u (Some (length (session_objs h)))]>
            (user_objs h);
        session_objs := session_objs h ++ [Session_init self c now] |},
     Some (length (session_objs h))).
Proof.
  intros Hu Hc Hs. unfold start_session. rewrite Hu, Hc, Hs.
  rewrite (alter_fixed start_charge _ c ch Hc (start_charge_available ch Hs)).
  reflexivity.
Qed.

(** The outcome of [start_charging] once the user and the station resolve
    and the station lists a charger as available. *)
Lemma start_charging_success w user_id station_id now user u st c rest :
  get_user_by_id w user_id = Some user →
  user_objs (heap w) !! user = Some u →
  get_station w station_id = Some st →
  get_available_chargers (heap w) st = c :: rest →
  start_charging w user_id station_id now =
    ({| heap :=
          {| charger_objs := charger_objs (heap w);
             user_objs :=
               <[user := set_active_session u
                           (Some (length (session_objs (heap w))))]>
                 (user_objs (heap w));
             session_objs :=
               session_objs (heap w) ++ [Session_init user c now] |};
        service :=
          set_sessions (service w)
            (PyDict.set (u_id u) (length (session_objs (heap w)))
               (sessions (service w))) |},
     Some (length (session_objs (heap w)))).
Proof.
  intros Hid Hu Hst Hav.
  destruct (get_available_chargers_status (heap w) st c) as (ch & Hc & Hs).
  { rewrite Hav. by left. }
  unfold start_charging. rewrite Hid, Hst, Hav.
  rewrite (start_session_available _ _ _ now u ch Hu Hc Hs).
  unfold session_user_id. simpl.
  rewrite lookup_app_r by lia. rewrite Nat.sub_diag. simpl.
  rewrite list_lookup_insert_eq by (by eapply lookup_lt_Some).
  reflexivity.
Qed.

(** A successful [start_charging] never marks the charger it hands out:
    the charger keeps the status ["available"] and stays in the station's
    list of available chargers. *)
Lemma start_charging_keeps_charger_available w user_id station_id now user u st c rest :
  get_user_by_id w user_id = Some user →
  user_objs (heap w) !! user = Some u →
  get_station w station_id = Some st →
  get_available_chargers (heap w) st = c :: rest →
  let w' := fst (start_charging w user_id station_id now) in
  charger_objs (heap w') = charger_objs (heap w)
  ∧ get_available_chargers (heap w') st = c :: rest.
Proof.
  intros Hid Hu Hst Hav.
  rewrite (start_charging_success w user_id station_id now user u st c rest)
    by done.
  simpl. split; [done|]. rewrite <- Hav. reflexivity.
Qed.

(** C1 (the code departs from it). In the end-to-end scenario, Ana's
    [start_charging] at station 1 succeeds, sets her [active_session] and
    records the session in the registry's index; but charger 101 keeps the
    status ["available"] and [get_available_chargers] still returns it. *)
Theorem start_charging_does_not_occupy :
  snd (start_charging w_ana 7 1 t0) = Some 0%nat
  ∧ (active_session <$> user_objs (heap w_charging) !! 0%nat)
    = Some (Some 0%nat)
  ∧ PyDict.get 7 (sessions (service w_charging)) = Some 0%nat
  ∧ (charger_objs (heap w_charging) !! 0%nat)
    = Some {| ch_id := 101; ch_type := "rapido"; ch_status := "available" |}
  ∧ (get_available_chargers (heap w_charging)
       <$> get_station w_charging 1) = Some [0%nat].
Proof. repeat split; vm_compute; reflexivity. Qed.

(** C2, counterexample. Ana already holds session 0 on charger 101; a second
    [start_charging] for her returns a session, so the guard does not hold. *)
Lemma start_charging_second_session_counterexample :
  ¬ rejects_second_session w_charging 7 1 t1.
Proof.
  intros Hg.
  destruct (Hg 0%nat
              (set_active_session
                 (User_init 7 "Ana" "ana@example.com"
                    (hash_password ext0 "salt" "password123") "individual" 100)
                 (Some 0%nat))
              0%nat) as (Hnone & _); [reflexivity..|].
  vm_compute in Hnone. discriminate Hnone.
Qed.

(** C2, as the code has it. For a user who already holds an active session,
    [start_charging] fails, leaving the state as it was, exactly when the
    station is unknown or lists no available charger; otherwise it succeeds
    with a new session that replaces the user's [active_session] and the
    registry's index entry, while the earlier session object stays in the
    store unchanged. *)
Theorem start_charging_replaces_active_session
    (w : World) (user_id : UUID) (station_id now : Z)
    (user : ref) (u : User) (s0 : ref) :
  get_user_by_id w user_id = Some user →
  user_objs (heap w) !! user = Some u →
  u_id u = user_id →
  active_session u = Some s0 →
  (s0 < length (session_objs (heap w)))%nat →
  match get_station w station_id with
  | None => start_charging w user_id station_id now = (w, None)
  | Some st =>
      match get_available_chargers (heap w) st with
      | [] => start_charging w user_id station_id now = (w, None)
      | _ :: _ =>
          ∃ w' s,
            start_charging w user_id station_id now = (w', Some s)
            ∧ s ≠ s0
            ∧ (active_session <$> user_objs (heap w') !! user)
              = Some (Some s)
            ∧ PyDict.get user_id (sessions (service w')) = Some s
            ∧ session_objs (heap w') !! s0 = session_objs (heap w) !! s0
      end
  end.
Proof.
  intros Hid Hu Huid Hact Hs0.
  destruct (get_station w station_id) as [st|] eqn:Hst.
  - destruct (get_available_chargers (heap w) st) as [|c rest] eqn:Hav.
    + unfold start_charging. by rewrite Hid, Hst, Hav.
    + eexists _, _. split.
      { by apply (start_charging_success w user_id station_id now user u st c rest). }
      simpl. repeat split.
      * lia.
      * rewrite list_lookup_insert_eq by (by eapply lookup_lt_Some). done.
      * rewrite Huid. apply get_set_eq.
      * by rewrite lookup_app_l.
  - unfold start_charging. rewrite Hid, Hst. done.
Qed.

Lemma start_charging_replaces_active_session_witness :
  ∃ w' s,
    start_charging w_charging 7 1 t1 = (w', Some s)
    ∧ s ≠ 0%nat
    ∧ (active_session <$> user_objs (heap w') !! 0%nat) = Some (Some s)
    ∧ PyDict.get 7 (sessions (service w')) = Some s
    ∧ session_objs (heap w') !! 0%nat
      = session_objs (heap w_charging) !! 0%nat.
Proof.
  apply (start_charging_replaces_active_session w_charging 7 1 t1 0%nat
           (set_active_session
              (User_init 7 "Ana" "ana@example.com"
                 (hash_password ext0 "salt" "password123") "individual" 100)
              (Some 0%nat))
           0%nat); [reflexivity..|vm_compute; lia].
Defined.

(** ** Ending a session *)

Lemma get_tarifa_cases (u : User) :
  (user_type u = "empresa" → get_tarifa u = 0.25%float)
  ∧ (user_type u ≠ "empresa" → get_tarifa u = 0.3%float).
Proof.
  unfold get_tarifa.
  destruct (String.eqb_spec (user_type u) "empresa"); split; done.
Qed.

Lemma descontar_saldo_saldo (u : User) (a : float) :
  saldo (fst (descontar_saldo u a))
  = if (a <=? saldo u)%float then (saldo u - a)%float else saldo u.
Proof.
  unfold descontar_saldo, tiene_saldo_suficiente.
  by destruct (a <=? saldo u)%float.
Qed.

Lemma descontar_saldo_frame (u : User) (a : float) :
  sessions_history (fst (descontar_saldo u a)) = sessions_history u
  ∧ active_session (fst (descontar_saldo u a)) = active_session u
  ∧ u_id (fst (descontar_saldo u a)) = u_id u.
Proof.
  unfold descontar_saldo, tiene_saldo_suficiente.
  by destruct (a <=? saldo u)%float.
Qed.

Lemma descontar_saldo_identity (u : User) (a : float) :
  u_name (fst (descontar_saldo u a)) = u_name u
  ∧ u_email (fst (descontar_saldo u a)) = u_email u
  ∧ password_hash (fst (descontar_saldo u a)) = password_hash u
  ∧ user_type (fst (descontar_saldo u a)) = user_type u.
Proof.
  unfold descontar_saldo, tiene_saldo_suficiente.
  by destruct (a <=? saldo u)%float.
Qed.




(** ** The balance never goes below zero *)

Lemma is_finite_inv (a : float) :
  is_finite a = true → is_nan a = false ∧ is_infinity a = false.
Proof.
  unfold is_finite. by destruct (is_nan a), (is_infinity a).
Qed.

Lemma recargar_saldo_not_below (u : User) (a : float) :
  not_below_zero (saldo u) →
  not_below_zero (saldo (fst (recargar_saldo u a))).
Proof.
  intros Hu. unfold recargar_saldo.
  destruct (a <=? 0)%float eqn:E; simpl; [done|].
  by apply add_not_below_zero.
Qed.

Lemma recargar_saldo_nonneg (u : User) (a : float) :
  is_nan a = false →
  fnonneg (saldo u) → fnonneg (saldo (fst (recargar_saldo u a))).
Proof.
  intros Ha Hu. unfold recargar_saldo.
  destruct (a <=? 0)%float eqn:E; simpl; [done|].
  by apply add_nonneg.
Qed.

Lemma descontar_saldo_not_below (u : User) (a : float) :
  not_below_zero (saldo u) →
  not_below_zero (saldo (fst (descontar_saldo u a))).
Proof.
  intros Hu. rewrite descontar_saldo_saldo.
  destruct (a <=? saldo u)%float eqn:E; [|done].
  by apply sub_not_below_zero.
Qed.

Lemma descontar_saldo_nonneg (u : User) (a : float) :
  is_infinity a = false →
  fnonneg (saldo u) → fnonneg (saldo (fst (descontar_saldo u a))).
Proof.
  intros Ha Hu. rewrite descontar_saldo_saldo.
  destruct (a <=? saldo u)%float eqn:E; [|done].
  by apply sub_nonneg.
Qed.

(** The cost of a session is never infinite: a duration is below 1440
    minutes, and there are two tariffs. *)
Lemma session_cost_finite (ses : Session) (now : Z) (u : User) :
  is_infinity
    (float_of_int (get_duration (Session_end ses now) now) * kwh_per_minute
     * get_tarifa u)%float = false.
Proof.
  assert (forallb
            (fun n =>
               negb (is_infinity
                       (float_of_int (Z.of_nat n) * kwh_per_minute * 0.25))
               && negb (is_infinity
                          (float_of_int (Z.of_nat n) * kwh_per_minute * 0.3)))
            (seq 0 1440) = true) as Hall by (vm_compute; reflexivity).
  rewrite forallb_forall in Hall.
  unfold get_duration. simpl.
  pose proof (td_seconds_range now (start_time ses)) as Hr.
  set (d := td_seconds (datetime_sub now (start_time ses)) / 60).
  assert (0 <= d < 1440) as Hd.
  { unfold d. split; [apply Z.div_pos; lia|].
    apply Z.div_lt_upper_bound; lia. }
  specialize (Hall (Z.to_nat d)). rewrite Z2Nat.id in Hall by lia.
  apply andb_prop in Hall as [H1 H2]; [|apply in_seq; lia].
  unfold get_tarifa.
  destruct (String.eqb (user_type u) "empresa");
    [by apply negb_true_iff in H1|by apply negb_true_iff in H2].
Qed.

Lemma on_user_Forall (P : User → Prop) (h : Heap) (user : ref)
    (f : User → User) :
  (∀ u, P u → P (f u)) →
  Forall P (user_objs h) → Forall P (user_objs (on_user h user f)).
Proof.
  unfold on_user. simpl. intros Hf Hh.
  apply Forall_alter; [done|]. intros u _. apply Hf.
Qed.

Lemma end_session_not_below (h : Heap) (self : ref) (now : Z) :
  balances_not_below_zero h →
  balances_not_below_zero (end_session h self now).
Proof.
  unfold balances_not_below_zero, end_session. intros Hh.
  destruct (user_objs h !! self) as [u|] eqn:Hu; [|done].
  destruct (active_session u) as [s|]; [|done].
  destruct (session_objs h !! s) as [ses|]; [|done].
  simpl. apply Forall_insert; [done|]. simpl.
  apply descontar_saldo_not_below.
  by eapply (proj1 (Forall_lookup _ _) Hh).
Qed.

Lemma end_session_nonneg (h : Heap) (self : ref) (now : Z) :
  balances_nonneg h → balances_nonneg (end_session h self now).
Proof.
  unfold balances_nonneg, end_session. intros Hh.
  destruct (user_objs h !! self) as [u|] eqn:Hu; [|done].
  destruct (active_session u) as [s|]; [|done].
  destruct (session_objs h !! s) as [ses|]; [|done].
  simpl. apply Forall_insert; [done|]. simpl.
  apply descontar_saldo_nonneg; [apply session_cost_finite|].
  by eapply (proj1 (Forall_lookup _ _) Hh).
Qed.

Lemma balance_step_not_below (h : Heap) (op : BalanceOp) :
  balances_not_below_zero h → balances_not_below_zero (balance_step h op).
Proof.
  destruct op as [user a|user a|user now]; simpl.
  - apply (on_user_Forall (fun u => not_below_zero (saldo u))).
    intros u. apply recargar_saldo_not_below.
  - apply (on_user_Forall (fun u => not_below_zero (saldo u))).
    intros u. apply descontar_saldo_not_below.
  - apply end_session_not_below.
Qed.

Lemma balance_step_nonneg (h : Heap) (op : BalanceOp) :
  finite_amount op →
  balances_nonneg h → balances_nonneg (balance_step h op).
Proof.
  destruct op as [user a|user a|user now]; simpl.
  - intros [Hn _]%is_finite_inv.
    apply (on_user_Forall (fun u => fnonneg (saldo u))).
    intros u. by apply recargar_saldo_nonneg.
  - intros [_ Hi]%is_finite_inv.
    apply (on_user_Forall (fun u => fnonneg (saldo u))).
    intros u. by apply descontar_saldo_nonneg.
  - intros _. apply end_session_nonneg.
Qed.

(** C5. Over any sequence of [recargar_saldo], [descontar_saldo] and
    [end_session] calls, on any users and at any instants: when no balance
    of the store is below zero, none is afterwards, whatever the amounts
    (infinities and NaN included); and when every balance is at least zero
    and the amounts handed to [recargar_saldo] and [descontar_saldo] are
    finite numbers, every balance is at least zero afterwards. *)
Theorem balance_never_negative (h : Heap) (ops : list BalanceOp) :
  (balances_not_below_zero h → balances_not_below_zero (balance_run h ops))
  ∧ (balances_nonneg h → Forall finite_amount ops →
     balances_nonneg (balance_run h ops)).
Proof.
  unfold balance_run. revert h.
  induction ops as [|op ops IH]; intros h; simpl; [done|].
  split.
  - intros Hh. apply IH. by apply balance_step_not_below.
  - intros Hh [Hop Hops]%Forall_cons. apply IH; [|done].
    by apply balance_step_nonneg.
Qed.

Lemma balance_never_negative_witness :
  balances_not_below_zero
    (balance_run (heap w_charging)
       [BRecargar 0%nat (-5); BDescontar 0%nat infinity;
        BRecargar 0%nat nan; BEndSession 0%nat t_end])
  ∧ balances_nonneg
      (balance_run (heap w_charging)
         [BRecargar 0%nat (-5); BDescontar 0%nat 250; BRecargar 0%nat 20;
          BEndSession 0%nat t_end; BDescontar 0%nat 120]).
Proof.
  split.
  - apply (balance_never_negative (heap w_charging)).
    repeat constructor.
  - apply (balance_never_negative (heap w_charging)).
    + repeat constructor.
    + repeat constructor.
Defined.

(** ** Registration *)

Lemma get_user_by_email_Some w email :
  email_registered w email → is_Some (get_user_by_email w email).
Proof.
  intros (r & u & Hin & Hu & He). unfold get_user_by_email.
  destruct (find _ _) eqn:Hf; [eauto|].
  eapply find_none in Hf; [|exact Hin].
  unfold email_is in Hf. rewrite Hu, He, String.eqb_refl in Hf. done.
Qed.

Lemma get_user_by_email_None w email :
  ¬ email_registered w email → get_user_by_email w email = None.
Proof.
  intros Hno. unfold get_user_by_email.
  destruct (find _ _) as [r|] eqn:Hf; [|done].
  apply find_some in Hf as [Hin He]. unfold email_is in He.
  destruct (user_objs (heap w) !! r) as [u|] eqn:Hu; [|done].
  apply String.eqb_eq in He. destruct Hno. by exists r, u.
Qed.

(** C7. When some stored user already has the email, [register_user]
    raises [ValueError] (an exception, not the [None] the other operations
    return on failure) and the state is exactly as before.  When no stored
    user has it, one user object is created, with the password hash that
    [hash_password] returns for the given password; it is entered in the
    user index under its identifier and nothing else changes. *)
Theorem register_user_duplicate_or_fresh
    (ext : External) (w : World) (new_id : UUID)
    (salt name email password utype : string) (saldo_inicial : float) :
  (email_registered w email →
   ∃ msg,
     register_user ext w new_id salt name email password utype saldo_inicial
     = (w, inl (ValueError msg)))
  ∧ (¬ email_registered w email →
     ∃ w' nu,
       register_user ext w new_id salt name email password utype saldo_inicial
       = (w', inr (length (user_objs (heap w))))
       ∧ user_objs (heap w') = user_objs (heap w) ++ [nu]
       ∧ nu = User_init new_id name email (hash_password ext salt password)
                utype saldo_inicial
       ∧ password_hash nu = hash_password ext salt password
       ∧ get_user_by_id w' new_id = Some (length (user_objs (heap w)))
       ∧ (∀ k, k ≠ new_id → get_user_by_id w' k = get_user_by_id w k)
       ∧ charger_objs (heap w') = charger_objs (heap w)
       ∧ session_objs (heap w') = session_objs (heap w)
       ∧ stations (service w') = stations (service w)
       ∧ chargers (service w') = chargers (service w)
       ∧ sessions (service w') = sessions (service w)
       ∧ maintenances (service w') = maintenances (service w)).
Proof.
  split.
  - intros Hdup. apply get_user_by_email_Some in Hdup as [r Hr].
    unfold register_user. rewrite Hr. eauto.
  - intros Hfresh. apply get_user_by_email_None in Hfresh.
    unfold register_user. rewrite Hfresh.
    eexists _, _. split; [reflexivity|]. simpl.
    repeat split.
    + unfold get_user_by_id. simpl. apply get_set_eq.
    + intros k Hk. unfold get_user_by_id. simpl.
      apply get_set_ne. congruence.
Qed.

Lemma register_user_duplicate_or_fresh_witness :
  (∃ msg,
     register_user ext0 w_ana 8 "pepper" "Ana B" "ana@example.com" "other"
       "empresa" 10
     = (w_ana, inl (ValueError msg)))
  ∧ (∃ w' nu,
       register_user ext0 w_station 7 "salt" "Ana" "ana@example.com"
         "password123" "individual" 100
       = (w', inr 0%nat)
       ∧ user_objs (heap w') = [nu]
       ∧ password_hash nu = "$argon2id$salt$password123").
Proof.
  split.
  - apply (register_user_duplicate_or_fresh ext0 w_ana 8 "pepper" "Ana B"
             "ana@example.com" "other" "empresa" 10).
    exists 0%nat.
    exists (User_init 7 "Ana" "ana@example.com"
              (hash_password ext0 "salt" "password123") "individual" 100).
    repeat split. simpl. by left.
  - destruct (register_user_duplicate_or_fresh ext0 w_station 7 "salt" "Ana"
                "ana@example.com" "password123" "individual" 100)
      as [_ Hfresh].
    destruct Hfresh as (w' & nu & Hr & Hobjs & Hnu & Hpw & _).
    { intros (r & u & Hin & _). simpl in Hin. exact Hin. }
    exists w', nu. repeat split; [exact Hr|exact Hobjs|].
    rewrite Hpw. reflexivity.
Defined.

(** ** Chargers and the deletion of their station *)

(** C8, counterexample. Station 1 holds charger 101; after
    [delete_station] succeeds for station 1, [get_charger] still finds
    charger 101. *)
Lemma delete_station_keeps_chargers_counterexample :
  ¬ delete_station_drops_chargers w_station 1.
Proof.
  intros Hc.
  specialize (Hc (add_charger (Station_init 1 "Estacion Central" "Vigo") 0%nat)
                0%nat (Charger_init 101 "rapido")).
  vm_compute in Hc.
  specialize (Hc eq_refl (or_introl eq_refl) eq_refl eq_refl).
  discriminate Hc.
Qed.

Lemma delete_station_spec (w : World) (station_id : Z) :
  (snd (delete_station w station_id) = true
   ↔ is_Some (get_station w station_id))
  ∧ get_station (fst (delete_station w station_id)) station_id = None
  ∧ (∀ k, k ≠ station_id →
          get_station (fst (delete_station w station_id)) k = get_station w k)
  ∧ chargers (service (fst (delete_station w station_id)))
    = chargers (service w)
  ∧ users (service (fst (delete_station w station_id))) = users (service w)
  ∧ sessions (service (fst (delete_station w station_id)))
    = sessions (service w)
  ∧ maintenances (service (fst (delete_station w station_id)))
    = maintenances (service w)
  ∧ heap (fst (delete_station w station_id)) = heap w.
Proof.
  unfold delete_station, get_station, PyDict.contains.
  destruct (PyDict.get station_id (stations (service w))) as [st|] eqn:Hg;
    simpl.
  - repeat split; eauto using get_del_eq.
    intros k Hk. by apply get_del_ne.
  - repeat split; try done.
Qed.

Lemma start_session_charger_objs h self c now r ch :
  charger_objs h !! r = Some ch →
  ∃ ch', charger_objs (fst (start_session h self c now)) !! r = Some ch'
         ∧ ch_id ch' = ch_id ch ∧ ch_type ch' = ch_type ch.
Proof.
  intros Hr. unfold start_session.
  destruct (user_objs h !! self); [|eauto].
  destruct (charger_objs h !! c); [|eauto].
  destruct (_ || _); [|eauto]. simpl.
  destruct (decide (c = r)) as [->|Hne].
  - rewrite list_lookup_alter_eq, Hr. simpl.
    eexists. split; [done|]. unfold start_charge.
    by destruct (String.eqb _ _).
  - rewrite list_lookup_alter_ne by done. eauto.
Qed.

Lemma end_session_charger_objs h self now r ch :
  charger_objs h !! r = Some ch →
  ∃ ch', charger_objs (end_session h self now) !! r = Some ch'
         ∧ ch_id ch' = ch_id ch ∧ ch_type ch' = ch_type ch.
Proof.
  intros Hr. unfold end_session.
  destruct (user_objs h !! self) as [u|]; [|eauto].
  destruct (active_session u) as [s|]; [|eauto].
  destruct (session_objs h !! s) as [ses|]; [|eauto]. simpl.
  destruct (decide (se_charger ses = r)) as [->|Hne].
  - rewrite list_lookup_alter_eq, Hr. simpl.
    eexists. split; [done|]. unfold stop_charge.
    by destruct (String.eqb _ _).
  - rewrite list_lookup_alter_ne by done. eauto.
Qed.

(** No operation of the service removes a key of the charger index. *)
Lemma step_keeps_charger_index ext w op charger_id :
  is_Some (get_charger w charger_id) →
  is_Some (get_charger (step ext w op) charger_id).
Proof.
  unfold get_charger. intros Hc.
  destruct op; simpl.
  - unfold register_user. by destruct (get_user_by_email _ _).
  - done.
  - unfold delete_station. by destruct (PyDict.contains _ _).
  - unfold add_charger_to_station.
    destruct (get_station _ _); [|done]. simpl.
    by apply get_set_is_Some.
  - unfold start_charging.
    destruct (get_user_by_id _ _); [|done].
    destruct (get_station _ _); [|done].
    destruct (get_available_chargers _ _); [done|].
    destruct (start_session _ _ _ _) as [h [session|]]; [|done].
    by destruct (session_user_id _ _).
  - unfold end_charging.
    destruct (get_user_by_id _ _); [|done]. simpl.
    by destruct (PyDict.contains _ _).
  - unfold recargar_saldo_usuario.
    destruct (get_user_by_id _ _); [|done].
    destruct (_ !! _); [|done].
    by destruct (recargar_saldo _ _).
  - done.
  - done.
  - unfold iniciar_mantenimiento.
    by destruct (PyDict.get id (maintenances _)).
  - unfold completar_mantenimiento.
    by destruct (PyDict.get id (maintenances _)).
Qed.

(** Only [add_charger_to_station] with the same charger id changes what the
    charger index holds under an id. *)
Lemma step_keeps_charger_ref ext w op charger_id :
  ¬ adds_charger_id charger_id op →
  get_charger (step ext w op) charger_id = get_charger w charger_id.
Proof.
  unfold get_charger. intros Hop.
  destruct op; simpl.
  - unfold register_user. by destruct (get_user_by_email _ _).
  - done.
  - unfold delete_station. by destruct (PyDict.contains _ _).
  - unfold add_charger_to_station.
    destruct (get_station _ _); [|done]. simpl.
    apply get_set_ne. simpl in Hop. done.
  - unfold start_charging.
    destruct (get_user_by_id _ _); [|done].
    destruct (get_station _ _); [|done].
    destruct (get_available_chargers _ _); [done|].
    destruct (start_session _ _ _ _) as [h [session|]]; [|done].
    by destruct (session_user_id _ _).
  - unfold end_charging.
    destruct (get_user_by_id _ _); [|done]. simpl.
    by destruct (PyDict.contains _ _).
  - unfold recargar_saldo_usuario.
    destruct (get_user_by_id _ _); [|done].
    destruct (_ !! _); [|done].
    by destruct (recargar_saldo _ _).
  - done.
  - done.
  - unfold iniciar_mantenimiento.
    by destruct (PyDict.get id (maintenances _)).
  - unfold completar_mantenimiento.
    by destruct (PyDict.get id (maintenances _)).
Qed.

(** Only the station operations change the station index. *)
Lemma step_keeps_stations ext w op :
  match op with
  | OpCreateStation _ _ _ | OpDeleteStation _ | OpAddCharger _ _ _ => True
  | _ => stations (service (step ext w op)) = stations (service w)
  end.
Proof.
  destruct op; simpl; try done.
  - unfold register_user. by destruct (get_user_by_email _ _).
  - unfold start_charging.
    destruct (get_user_by_id _ _); [|done].
    destruct (get_station _ _); [|done].
    destruct (get_available_chargers _ _); [done|].
    destruct (start_session _ _ _ _) as [h [session|]]; [|done].
    by destruct (session_user_id _ _).
  - unfold end_charging.
    destruct (get_user_by_id _ _); [|done]. simpl.
    by destruct (PyDict.contains _ _).
  - unfold recargar_saldo_usuario.
    destruct (get_user_by_id _ _); [|done].
    destruct (_ !! _); [|done].
    by destruct (recargar_saldo _ _).
  - unfold iniciar_mantenimiento.
    by destruct (PyDict.get id (maintenances _)).
  - unfold completar_mantenimiento.
    by destruct (PyDict.get id (maintenances _)).
Qed.

(** A station keeps listing a charger through every operation but its own
    deletion and the creation of a station under its id. *)
Lemma step_keeps_station_charger ext w op sid st r :
  ¬ replaces_station sid op →
  get_station w sid = Some st →
  In r (st_chargers st) →
  ∃ st', get_station (step ext w op) sid = Some st' ∧ In r (st_chargers st').
Proof.
  intros Hop Hst Hin.
  pose proof (step_keeps_stations ext w op) as Hk.
  unfold get_station in *.
  destruct op; simpl in Hop;
    try (exists st; split; [by rewrite Hk|done]).
  - simpl. unfold create_station. simpl.
    exists st. split; [|done]. by rewrite get_set_ne.
  - simpl. unfold delete_station.
    exists st. split; [|done].
    destruct (PyDict.contains _ _); simpl; [|done].
    by rewrite get_del_ne.
  - simpl. unfold add_charger_to_station, get_station.
    destruct (PyDict.get station_id (stations (service w))) as [st0|] eqn:Hst0;
      [|by exists st].
    simpl. destruct (decide (station_id = sid)) as [->|Hne].
    + rewrite get_set_eq. eexists. split; [done|]. simpl.
      apply in_or_app. left. congruence.
    + rewrite get_set_ne by done. by exists st.
Qed.

(** No operation of the service removes a charger object or changes its
    identifier or its type. *)
Lemma step_keeps_charger_objs ext w op r ch :
  charger_objs (heap w) !! r = Some ch →
  ∃ ch', charger_objs (heap (step ext w op)) !! r = Some ch'
         ∧ ch_id ch' = ch_id ch ∧ ch_type ch' = ch_type ch.
Proof.
  intros Hr.
  destruct op; simpl.
  - unfold register_user. destruct (get_user_by_email _ _); simpl; eauto.
  - eauto.
  - unfold delete_station. destruct (PyDict.contains _ _); simpl; eauto.
  - unfold add_charger_to_station.
    destruct (get_station _ _); [|eauto]. simpl.
    exists ch. split; [|done].
    rewrite lookup_app_l; [done|]. by eapply lookup_lt_Some.
  - unfold start_charging.
    destruct (get_user_by_id _ _) as [user|]; [|eauto].
    destruct (get_station _ _); [|eauto].
    destruct (get_available_chargers _ _) as [|c rest]; [eauto|].
    pose proof (start_session_charger_objs (heap w) user c now r ch Hr) as Hs.
    destruct (start_session _ _ _ _) as [h [session|]]; [|done].
    by destruct (session_user_id _ _).
  - unfold end_charging.
    destruct (get_user_by_id _ _); [|eauto]. simpl.
    by apply end_session_charger_objs.
  - unfold recargar_saldo_usuario.
    destruct (get_user_by_id _ _) as [user|]; [|eauto].
    destruct (user_objs (heap w) !! user); [|eauto].
    destruct (recargar_saldo _ _). simpl. eauto.
  - eauto.
  - eauto.
  - unfold iniciar_mantenimiento.
    destruct (PyDict.get id (maintenances _)); simpl; eauto.
  - unfold completar_mantenimiento.
    destruct (PyDict.get id (maintenances _)); simpl; eauto.
Qed.

Lemma run_keeps_charger_index ext w ops charger_id :
  is_Some (get_charger w charger_id) →
  is_Some (get_charger (run ext w ops) charger_id).
Proof.
  unfold run. revert w.
  induction ops as [|op ops IH]; intros w Hs; simpl; [done|].
  apply IH. by apply step_keeps_charger_index.
Qed.

Lemma run_keeps_charger_ref ext w ops charger_id :
  Forall (fun op => ¬ adds_charger_id charger_id op) ops →
  get_charger (run ext w ops) charger_id = get_charger w charger_id.
Proof.
  unfold run. revert w.
  induction ops as [|op ops IH]; intros w Hops; simpl; [done|].
  apply Forall_cons in Hops as [Hop Hrest].
  rewrite IH by done. by apply step_keeps_charger_ref.
Qed.

Lemma run_keeps_charger_objs ext w ops r ch :
  charger_objs (heap w) !! r = Some ch →
  ∃ ch', charger_objs (heap (run ext w ops)) !! r = Some ch'
         ∧ ch_id ch' = ch_id ch ∧ ch_type ch' = ch_type ch.
Proof.
  unfold run. revert w ch.
  induction ops as [|op ops IH]; intros w ch Hr; simpl; [eauto|].
  destruct (step_keeps_charger_objs ext w op r ch Hr)
    as (ch1 & H1 & Hid1 & Hty1).
  destruct (IH _ _ H1) as (ch2 & H2 & Hid2 & Hty2).
  exists ch2. split; [done|]. split; congruence.
Qed.

Lemma run_keeps_station_charger ext w ops sid st r :
  Forall (fun op => ¬ replaces_station sid op) ops →
  get_station w sid = Some st →
  In r (st_chargers st) →
  ∃ st', get_station (run ext w ops) sid = Some st' ∧ In r (st_chargers st').
Proof.
  unfold run. revert w st.
  induction ops as [|op ops IH]; intros w st Hops Hst Hin; simpl; [eauto|].
  apply Forall_cons in Hops as [Hop Hrest].
  destruct (step_keeps_station_charger ext w op sid st r Hop Hst Hin)
    as (st1 & Hst1 & Hin1).
  by apply (IH _ st1).
Qed.

(** C8, as the code has it. A charger, once entered in the registry, stays.
    Through every sequence of service operations, [delete_station] included,
    its identifier remains a key of the global charger index, leading to the
    same charger object unless [add_charger_to_station] is called again with
    that charger id; its object remains in the store with the same id and
    type; and a station that lists it keeps listing it until that station
    is deleted or a station is created under the same id.
    [delete_station] succeeds exactly when the station is known and removes
    that station's entry from the station index and nothing else: the other
    stations, the charger, user, session and maintenance indexes and the
    object store are as they were, so the charger is still found by id. *)
Theorem chargers_outlive_their_station
    (ext : External) (w : World) (charger_id : Z) (r : ref) (ch : Charger) :
  get_charger w charger_id = Some r →
  charger_objs (heap w) !! r = Some ch →
  (∀ ops,
     is_Some (get_charger (run ext w ops) charger_id)
     ∧ (Forall (fun op => ¬ adds_charger_id charger_id op) ops →
        get_charger (run ext w ops) charger_id = Some r)
     ∧ (∃ ch', charger_objs (heap (run ext w ops)) !! r = Some ch'
               ∧ ch_id ch' = ch_id ch ∧ ch_type ch' = ch_type ch)
     ∧ (∀ sid st,
          get_station w sid = Some st →
          In r (st_chargers st) →
          Forall (fun op => ¬ replaces_station sid op) ops →
          ∃ st', get_station (run ext w ops) sid = Some st'
                 ∧ In r (st_chargers st')))
  ∧ (∀ station_id,
       (snd (delete_station w station_id) = true
        ↔ is_Some (get_station w station_id))
       ∧ get_station (fst (delete_station w station_id)) station_id = None
       ∧ (∀ k, k ≠ station_id →
               get_station (fst (delete_station w station_id)) k
               = get_station w k)
       ∧ chargers (service (fst (delete_station w station_id)))
         = chargers (service w)
       ∧ users (service (fst (delete_station w station_id)))
         = users (service w)
       ∧ sessions (service (fst (delete_station w station_id)))
         = sessions (service w)
       ∧ maintenances (service (fst (delete_station w station_id)))
         = maintenances (service w)
       ∧ get_charger (fst (delete_station w station_id)) charger_id = Some r
       ∧ heap (fst (delete_station w station_id)) = heap w).
Proof.
  intros Hc Hr. split.
  - intros ops. split; [|split; [|split]].
    + apply run_keeps_charger_index. by rewrite Hc.
    + intros Hops. by rewrite run_keeps_charger_ref.
    + by apply run_keeps_charger_objs.
    + intros sid st Hst Hin Hops. by eapply run_keeps_station_charger.
  - intros station_id.
    destruct (delete_station_spec w station_id)
      as (Hok & Hgone & Hfr & Hidx & Hus & Hse & Hma & Hheap).
    repeat split; try apply Hok; try done.
    unfold get_charger. by rewrite Hidx.
Qed.

Lemma chargers_outlive_their_station_witness :
  get_charger
    (run ext0 w_station
       [OpRegisterUser 7 "salt" "Ana" "ana@example.com" "password123"
          "individual" 100;
        OpStartCharging 7 1 t0; OpDeleteStation 1;
        OpEndCharging 7 t_end]) 101 = Some 0%nat
  ∧ (∃ st', get_station
              (run ext0 w_station
                 [OpAddCharger 1 102 "normal"; OpCreateStation 2 "Sur" "Vigo";
                  OpDeleteStation 2]) 1 = Some st'
            ∧ In 0%nat (st_chargers st'))
  ∧ get_station (fst (delete_station w_station 1)) 1 = None
  ∧ get_charger (fst (delete_station w_station 1)) 101 = Some 0%nat.
Proof.
  destruct (chargers_outlive_their_station ext0 w_station 101 0%nat
              (Charger_init 101 "rapido") eq_refl eq_refl) as [Hrun Hdel].
  split; [|split].
  - apply Hrun. repeat constructor; simpl; tauto.
  - destruct (Hrun [OpAddCharger 1 102 "normal";
                    OpCreateStation 2 "Sur" "Vigo"; OpDeleteStation 2])
      as (_ & _ & _ & Hst).
    apply (Hst 1 (add_charger (Station_init 1 "Estacion Central" "Vigo")
                    0%nat)).
    + reflexivity.
    + simpl. by left.
    + repeat constructor; simpl; [tauto|lia|lia].
  - destruct (Hdel 1) as (_ & Hgone & _ & _ & _ & _ & _ & Hidx & _).
    by split.
Defined.

(** ** States reached from the empty service *)

Lemma recargar_saldo_frame (u : User) (a : float) :
  u_id (fst (recargar_saldo u a)) = u_id u
  ∧ active_session (fst (recargar_saldo u a)) = active_session u.
Proof. unfold recargar_saldo. by destruct (a <=? 0)%float. Qed.

Lemma start_session_user_ids h self c now r u :
  user_objs h !! r = Some u →
  ∃ u', user_objs (fst (start_session h self c now)) !! r = Some u'
        ∧ u_id u' = u_id u.
Proof.
  intros Hr. unfold start_session.
  destruct (user_objs h !! self) as [u0|] eqn:Hself; [|eauto].
  destruct (charger_objs h !! c); [|eauto].
  destruct (_ || _); [|eauto]. simpl.
  destruct (decide (self = r)) as [->|Hne].
  - rewrite list_lookup_insert_eq by (by eapply lookup_lt_Some).
    eexists. split; [done|]. simpl. congruence.
  - rewrite list_lookup_insert_ne by done. eauto.
Qed.

Lemma end_session_user_ids h self now r u :
  user_objs h !! r = Some u →
  ∃ u', user_objs (end_session h self now) !! r = Some u'
        ∧ u_id u' = u_id u.
Proof.
  intros Hr. unfold end_session.
  destruct (user_objs h !! self) as [u0|] eqn:Hself; [|eauto].
  destruct (active_session u0) as [s|]; [|eauto].
  destruct (session_objs h !! s) as [ses|]; [|eauto]. simpl.
  destruct (decide (self = r)) as [->|Hne].
  - rewrite list_lookup_insert_eq by (by eapply lookup_lt_Some).
    eexists. split; [done|]. simpl.
    destruct (descontar_saldo_frame u0
      (float_of_int (get_duration (Session_end ses now) now)
        * kwh_per_minute * get_tarifa u0)%float) as (_ & _ & Hid).
    congruence.
  - rewrite list_lookup_insert_ne by done. eauto.
Qed.

(** No operation of the service removes a user object or changes its
    identifier. *)
Lemma step_keeps_user_ids ext w op r u :
  user_objs (heap w) !! r = Some u →
  ∃ u', user_objs (heap (step ext w op)) !! r = Some u' ∧ u_id u' = u_id u.
Proof.
  intros Hr.
  destruct op; simpl.
  - unfold register_user. destruct (get_user_by_email _ _); simpl; [eauto|].
    exists u. split; [|done].
    rewrite lookup_app_l; [done|]. by eapply lookup_lt_Some.
  - eauto.
  - unfold delete_station. destruct (PyDict.contains _ _); simpl; eauto.
  - unfold add_charger_to_station.
    destruct (get_station _ _); simpl; eauto.
  - unfold start_charging.
    destruct (get_user_by_id _ _) as [user|]; [|eauto].
    destruct (get_station _ _); [|eauto].
    destruct (get_available_chargers _ _) as [|c rest]; [eauto|].
    pose proof (start_session_user_ids (heap w) user c now r u Hr) as Hs.
    destruct (start_session _ _ _ _) as [h [session|]]; [|done].
    by destruct (session_user_id _ _).
  - unfold end_charging.
    destruct (get_user_by_id _ _); [|eauto]. simpl.
    by apply end_session_user_ids.
  - unfold recargar_saldo_usuario.
    destruct (get_user_by_id _ _) as [user|]; [|eauto].
    destruct (user_objs (heap w) !! user) as [u0|] eqn:Hu0; [|eauto].
    destruct (recargar_saldo u0 cantidad) as [u1 ok] eqn:Hrec. simpl.
    destruct (decide (user = r)) as [->|Hne].
    + rewrite list_lookup_insert_eq by (by eapply lookup_lt_Some).
      eexists. split; [done|].
      destruct (recargar_saldo_frame u0 cantidad) as [Hid _].
      rewrite Hrec in Hid. simpl in Hid. congruence.
    + rewrite list_lookup_insert_ne by done. eauto.
  - eauto.
  - eauto.
  - unfold iniciar_mantenimiento.
    destruct (PyDict.get id (maintenances _)); simpl; eauto.
  - unfold completar_mantenimiento.
    destruct (PyDict.get id (maintenances _)); simpl; eauto.
Qed.

(** Only [register_user] writes the user index, and only for a new user. *)
Lemma step_user_index ext w op k r :
  get_user_by_id (step ext w op) k = Some r →
  get_user_by_id w k = Some r
  ∨ ∃ u, user_objs (heap (step ext w op)) !! r = Some u ∧ u_id u = k.
Proof.
  unfold get_user_by_id.
  destruct op; simpl; try (by left).
  - unfold register_user. destruct (get_user_by_email _ _); simpl; [by left|].
    destruct (decide (new_id = k)) as [->|Hne].
    + rewrite get_set_eq. intros [= <-]. right.
      eexists. rewrite lookup_app_r by lia. rewrite Nat.sub_diag. done.
    + rewrite get_set_ne by done. by left.
  - unfold delete_station. destruct (PyDict.contains _ _); by left.
  - unfold add_charger_to_station. destruct (get_station _ _); by left.
  - unfold start_charging.
    destruct (get_user_by_id w user_id); [|by left].
    destruct (get_station _ _); [|by left].
    destruct (get_available_chargers _ _); [by left|].
    destruct (start_session _ _ _ _) as [h [session|]]; [|by left].
    destruct (session_user_id _ _); by left.
  - unfold end_charging.
    destruct (get_user_by_id w user_id); [|by left]. simpl.
    destruct (PyDict.contains _ _); by left.
  - unfold recargar_saldo_usuario.
    destruct (get_user_by_id w user_id); [|by left].
    destruct (user_objs _ !! _); [|by left].
    destruct (recargar_saldo _ _); by left.
  - unfold iniciar_mantenimiento.
    destruct (PyDict.get id (maintenances _)); by left.
  - unfold completar_mantenimiento.
    destruct (PyDict.get id (maintenances _)); by left.
Qed.

Lemma indexed_users_ok_step ext w op :
  indexed_users_ok w → indexed_users_ok (step ext w op).
Proof.
  intros Hok k r Hget.
  destruct (step_user_index ext w op k r Hget) as [Hold|Hnew]; [|done].
  destruct (Hok k r Hold) as (u & Hu & Hid).
  destruct (step_keeps_user_ids ext w op r u Hu) as (u' & Hu' & Hid').
  exists u'. split; [done|]. congruence.
Qed.

(** In every state reached from the empty service, a user found under an
    identifier carries that identifier. *)
Lemma reachable_indexed_users_ok ext ops :
  indexed_users_ok (run ext world0 ops).
Proof.
  unfold run.
  assert (indexed_users_ok world0) as H0 by (intros k r; discriminate).
  revert H0. generalize world0.
  induction ops as [|op ops IH]; intros w Hw; simpl; [done|].
  apply IH. by apply indexed_users_ok_step.
Qed.

Lemma start_session_active_ok h self c now :
  active_sessions_ok h →
  active_sessions_ok (fst (start_session h self c now)).
Proof.
  unfold active_sessions_ok, start_session. intros Hok.
  destruct (user_objs h !! self) as [u|]; [|done].
  destruct (charger_objs h !! c); [|done].
  destruct (_ || _); [|done]. simpl.
  apply Forall_insert.
  - eapply Forall_impl; [exact Hok|]. simpl. intros u0 Hu0 s Hs.
    rewrite length_app. specialize (Hu0 s Hs). lia.
  - simpl. intros s [= <-]. rewrite length_app. simpl. lia.
Qed.

Lemma end_session_active_ok h self now :
  active_sessions_ok h → active_sessions_ok (end_session h self now).
Proof.
  unfold active_sessions_ok, end_session. intros Hok.
  destruct (user_objs h !! self) as [u|]; [|done].
  destruct (active_session u) as [s|]; [|done].
  destruct (session_objs h !! s) as [ses|]; [|done]. simpl.
  apply Forall_insert.
  - eapply Forall_impl; [exact Hok|]. simpl. intros u0 Hu0 s0 Hs0.
    rewrite length_insert. by apply Hu0.
  - simpl. intros s0. discriminate.
Qed.

Lemma active_sessions_ok_step ext w op :
  active_sessions_ok (heap w) → active_sessions_ok (heap (step ext w op)).
Proof.
  intros Hok.
  destruct op; simpl; try done.
  - unfold register_user. destruct (get_user_by_email _ _); simpl; [done|].
    unfold active_sessions_ok. simpl. apply Forall_app. split; [done|].
    constructor; [|done]. simpl. intros s. discriminate.
  - unfold delete_station. by destruct (PyDict.contains _ _).
  - unfold add_charger_to_station. by destruct (get_station _ _).
  - unfold start_charging.
    destruct (get_user_by_id _ _) as [user|]; [|done].
    destruct (get_station _ _); [|done].
    destruct (get_available_chargers _ _) as [|c rest]; [done|].
    pose proof (start_session_active_ok (heap w) user c now Hok) as Hs.
    destruct (start_session _ _ _ _) as [h [session|]]; [|done].
    by destruct (session_user_id _ _).
  - unfold end_charging.
    destruct (get_user_by_id _ _); [|done]. simpl.
    by apply end_session_active_ok.
  - unfold recargar_saldo_usuario.
    destruct (get_user_by_id _ _) as [user|]; [|done].
    destruct (user_objs (heap w) !! user) as [u0|] eqn:Hu0; [|done].
    destruct (recargar_saldo u0 cantidad) as [u1 ok] eqn:Hrec. simpl.
    unfold active_sessions_ok. simpl. apply Forall_insert; [done|].
    destruct (recargar_saldo_frame u0 cantidad) as [_ Hact].
    rewrite Hrec in Hact. simpl in Hact. rewrite Hact.
    by eapply (proj1 (Forall_lookup _ _) Hok).
  - unfold iniciar_mantenimiento.
    by destruct (PyDict.get id (maintenances _)).
  - unfold completar_mantenimiento.
    by destruct (PyDict.get id (maintenances _)).
Qed.

(** In every state reached from the empty service, the active session of a
    user is a session of the store. *)
Lemma reachable_active_sessions_ok ext ops :
  active_sessions_ok (heap (run ext world0 ops)).
Proof.
  unfold run.
  assert (active_sessions_ok (heap world0)) as H0 by constructor.
  revert H0. generalize world0.
  induction ops as [|op ops IH]; intros w Hw; simpl; [done|].
  apply IH. by apply active_sessions_ok_step.
Qed.

(** In every state reached from the empty service, a user who holds an
    active session gets it replaced by [start_charging] whenever the station
    lists an available charger. *)
Corollary reachable_start_charging_replaces ext ops user_id station_id now
    user u s0 st c rest :
  let w := run ext world0 ops in
  get_user_by_id w user_id = Some user →
  user_objs (heap w) !! user = Some u →
  active_session u = Some s0 →
  get_station w station_id = Some st →
  get_available_chargers (heap w) st = c :: rest →
  ∃ w' s,
    start_charging w user_id station_id now = (w', Some s)
    ∧ s ≠ s0
    ∧ (active_session <$> user_objs (heap w') !! user) = Some (Some s)
    ∧ PyDict.get user_id (sessions (service w')) = Some s.
Proof.
  intros w Hid Hu Hact Hst Hav. subst w.
  destruct (reachable_indexed_users_ok ext ops user_id user Hid)
    as (u1 & Hu1 & Huid).
  assert (u1 = u) as -> by congruence.
  pose proof (proj1 (Forall_lookup _ _) (reachable_active_sessions_ok ext ops)
                user u Hu s0 Hact) as Hs0. simpl in Hs0.
  rewrite (start_charging_success _ user_id station_id now user u st c rest)
    by done.
  eexists _, _. split; [reflexivity|]. simpl. repeat split.
  - lia.
  - rewrite list_lookup_insert_eq by (by eapply lookup_lt_Some). done.
  - rewrite Huid. apply get_set_eq.
Qed.

(** * Further properties of the code *)

(** ** Session.get_duration *)

Lemma get_duration_first_day_witness :
  get_duration (Session_init 0%nat 0%nat t0) t_end
  = elapsed_minutes_spec (Session_init 0%nat 0%nat t0) t_end.
Proof.
  apply (get_duration_first_day (Session_init 0%nat 0%nat t0) t_end).
  vm_compute. split; [discriminate|reflexivity].
Defined.

(** X3. On an open session, reading the duration any whole number of days
    later (or earlier) gives the same value: days never show. *)
Theorem get_duration_ignores_whole_days (self : Session) (now k : Z) :
  end_time self = None →
  get_duration self (now + k * us_per_day) = get_duration self now.
Proof.
  intros Hopen. unfold get_duration. rewrite Hopen.
  unfold datetime_sub. simpl.
  replace (now + k * us_per_day - start_time self)
    with (now - start_time self + k * us_per_day) by lia.
  rewrite Z.mod_add by (unfold us_per_day, us_per_second; lia).
  reflexivity.
Qed.

Lemma get_duration_ignores_whole_days_witness :
  get_duration (Session_init 0%nat 0%nat t0) (t_end + 3 * us_per_day)
  = get_duration (Session_init 0%nat 0%nat t0) t_end.
Proof.
  apply (get_duration_ignores_whole_days (Session_init 0%nat 0%nat t0) t_end 3).
  reflexivity.
Defined.

(** ** Charger *)

Lemma start_charge_other_status c :
  ch_status c ≠ "disponible" → start_charge c = c.
Proof.
  intros Hs. unfold start_charge.
  by destruct (String.eqb_spec (ch_status c) "disponible").
Qed.

(** X4. A charger whose status is neither ["disponible"] nor ["ocupado"]
    (so one built by the constructor, whose status is ["available"], or one
    in ["mantenimiento"]) is left exactly as it is by every sequence of
    [start_charge] and [stop_charge] calls. *)
Theorem charger_stuck_outside_cycle (c : Charger) (ops : list ChargerOp) :
  ch_status c ≠ "disponible" →
  ch_status c ≠ "ocupado" →
  charger_run c ops = c.
Proof.
  intros Hd Ho. unfold charger_run.
  induction ops as [|op ops IH]; simpl; [done|].
  destruct op; simpl.
  - by rewrite start_charge_other_status.
  - by rewrite stop_charge_not_ocupado.
Qed.

Lemma charger_stuck_outside_cycle_witness :
  charger_run (Charger_init 101 "rapido") [CStart; CStop; CStart; CStart]
  = Charger_init 101 "rapido".
Proof.
  apply (charger_stuck_outside_cycle (Charger_init 101 "rapido")
           [CStart; CStop; CStart; CStart]); discriminate.
Defined.

(** X5. [start_charge] and [stop_charge] never change a charger's id or
    type, and calling either twice in a row is the same as calling it once:
    starting an occupied charger and stopping a free one do nothing. *)
Theorem charger_methods_idempotent (c : Charger) :
  start_charge (start_charge c) = start_charge c
  ∧ stop_charge (stop_charge c) = stop_charge c
  ∧ ch_id (start_charge c) = ch_id c ∧ ch_type (start_charge c) = ch_type c
  ∧ ch_id (stop_charge c) = ch_id c ∧ ch_type (stop_charge c) = ch_type c.
Proof.
  unfold start_charge, stop_charge.
  destruct (String.eqb_spec (ch_status c) "disponible") as [Hd|Hd];
    destruct (String.eqb_spec (ch_status c) "ocupado") as [Ho|Ho]; simpl;
    rewrite ?Hd, ?Ho; simpl;
    repeat split;
    try (destruct (String.eqb_spec (ch_status c) "disponible"); done);
    try (destruct (String.eqb_spec (ch_status c) "ocupado"); done).
Qed.

(** ** Station *)

Lemma filter_sublist {A} (f : A → bool) (l : list A) :
  sublist (List.filter f l) l.
Proof.
  induction l as [|x l IH]; simpl; [constructor|].
  destruct (f x); by constructor.
Qed.

Lemma filter_head {A} (f : A → bool) (l : list A) (x : A) (rest : list A) :
  List.filter f l = x :: rest →
  ∃ pre post,
    l = pre ++ x :: post
    ∧ Forall (fun y => f y = false) pre
    ∧ f x = true.
Proof.
  induction l as [|y l IH]; simpl; [done|].
  destruct (f y) eqn:Hy.
  - intros [= -> _]. exists [], l. by repeat split.
  - intros Hf. destruct (IH Hf) as (pre & post & -> & Hpre & Hx).
    exists (y :: pre), post. repeat split; [|done]. by constructor.
Qed.

Lemma get_available_chargers_In (h : Heap) (st : Station) (c : ref) :
  In c (get_available_chargers h st)
  ↔ In c (st_chargers st)
    ∧ ∃ ch, charger_objs h !! c = Some ch ∧ ch_status ch = "available".
Proof.
  unfold get_available_chargers. rewrite filter_In.
  unfold status_is. split.
  - intros [Hin Hs]. split; [done|].
    destruct (charger_objs h !! c) as [ch|]; [|done].
    exists ch. split; [done|]. by apply String.eqb_eq.
  - intros [Hin (ch & Hc & Hs)]. split; [done|].
    rewrite Hc. by apply String.eqb_eq.
Qed.

(** X6. [get_available_chargers] returns, in the station's own order,
    exactly the chargers of the station whose status is ["available"]: a
    charger with any other status (["ocupado"], ["mantenimiento"], and also
    ["disponible"]) is never listed. *)
Theorem get_available_chargers_spec (h : Heap) (st : Station) :
  sublist (get_available_chargers h st) (st_chargers st)
  ∧ ∀ c,
      In c (get_available_chargers h st)
      ↔ In c (st_chargers st)
        ∧ ∃ ch, charger_objs h !! c = Some ch ∧ ch_status ch = "available".
Proof.
  split; [apply filter_sublist|]. apply get_available_chargers_In.
Qed.

(** X7. [reserve_charger] on a station with no available charger returns
    nothing and changes nothing.  Otherwise it returns the earliest charger
    of the station whose status is ["available"], sets that charger's status
    to ["ocupado"], so that it is no longer listed as available, and leaves
    every other object as it was. *)
Theorem reserve_charger_spec (h : Heap) (st : Station) :
  match get_available_chargers h st with
  | [] => reserve_charger h st = (h, None)
  | c :: _ =>
      ∃ h',
        reserve_charger h st = (h', Some c)
        ∧ (∃ pre post,
             st_chargers st = pre ++ c :: post
             ∧ Forall (fun y => status_is h "available" y = false) pre)
        ∧ status_is h' "ocupado" c = true
        ∧ ¬ In c (get_available_chargers h' st)
        ∧ (∀ r, r ≠ c → charger_objs h' !! r = charger_objs h !! r)
        ∧ user_objs h' = user_objs h
        ∧ session_objs h' = session_objs h
  end.
Proof.
  destruct (get_available_chargers h st) as [|c rest] eqn:Hav.
  - unfold reserve_charger. by rewrite Hav.
  - destruct (get_available_chargers_status h st c) as (ch & Hc & Hs).
    { rewrite Hav. by left. }
    eexists. split; [unfold reserve_charger; by rewrite Hav|].
    assert (status_is
              (set_charger_objs h
                 (alter (fun c0 => set_status c0 "ocupado") c (charger_objs h)))
              "ocupado" c = true) as Hocc.
    { unfold status_is. simpl. by rewrite list_lookup_alter_eq, Hc. }
    repeat split.
    + unfold get_available_chargers in Hav.
      destruct (filter_head _ _ _ _ Hav) as (pre & post & Hl & Hpre & _).
      by exists pre, post.
    + exact Hocc.
    + intros Hin. apply get_available_chargers_In in Hin
        as [_ (ch' & Hc' & Hs')].
      simpl in Hc'. rewrite list_lookup_alter_eq, Hc in Hc'.
      simpl in Hc'. injection Hc' as <-. discriminate Hs'.
    + intros r Hr. simpl. by rewrite list_lookup_alter_ne.
Qed.

(** ** Chargers are never occupied by the service *)

Lemma start_charging_frame (w : World) (user_id : UUID) (station_id now : Z) :
  charger_objs (heap (fst (start_charging w user_id station_id now)))
  = charger_objs (heap w)
  ∧ stations (service (fst (start_charging w user_id station_id now)))
    = stations (service w)
  ∧ chargers (service (fst (start_charging w user_id station_id now)))
    = chargers (service w).
Proof.
  unfold start_charging.
  destruct (get_user_by_id w user_id) as [user|]; [|done].
  destruct (get_station w station_id) as [st|]; [|done].
  destruct (get_available_chargers (heap w) st) as [|c rest] eqn:Hav; [done|].
  destruct (get_available_chargers_status (heap w) st c) as (ch & Hc & Hs).
  { rewrite Hav. by left. }
  destruct (user_objs (heap w) !! user) as [u|] eqn:Hu.
  - rewrite (start_session_available _ _ _ now u ch Hu Hc Hs).
    by destruct (session_user_id _ _).
  - unfold start_session. by rewrite Hu.
Qed.

(** X8. [start_charging], whether it succeeds or fails, leaves every charger
    object exactly as it was, so every station lists the same available
    chargers after the call as before it; it does not touch the station
    index or the charger index either. *)
Theorem start_charging_never_touches_chargers
    (w : World) (user_id : UUID) (station_id now : Z) :
  charger_objs (heap (fst (start_charging w user_id station_id now)))
  = charger_objs (heap w)
  ∧ (∀ st,
       get_available_chargers
         (heap (fst (start_charging w user_id station_id now))) st
       = get_available_chargers (heap w) st)
  ∧ stations (service (fst (start_charging w user_id station_id now)))
    = stations (service w)
  ∧ chargers (service (fst (start_charging w user_id station_id now)))
    = chargers (service w).
Proof.
  destruct (start_charging_frame w user_id station_id now)
    as (Hobjs & Hst & Hidx).
  repeat split; try done.
  intros st. unfold get_available_chargers, status_is. by rewrite Hobjs.
Qed.

Lemma end_session_all_available h self now :
  all_available h → all_available (end_session h self now).
Proof.
  unfold all_available, end_session. intros Hall.
  destruct (user_objs h !! self) as [u|]; [|done].
  destruct (active_session u) as [s|]; [|done].
  destruct (session_objs h !! s) as [ses|]; [|done]. simpl.
  apply Forall_alter; [done|]. intros ch _ Hs.
  rewrite stop_charge_not_ocupado; [done|]. by rewrite Hs.
Qed.

Lemma step_all_available ext w op :
  all_available (heap w) → all_available (heap (step ext w op)).
Proof.
  intros Hall.
  destruct op; simpl; try done.
  - unfold register_user. by destruct (get_user_by_email _ _).
  - unfold delete_station. by destruct (PyDict.contains _ _).
  - unfold add_charger_to_station.
    destruct (get_station _ _); [|done]. unfold all_available. simpl.
    apply Forall_app. split; [done|]. by repeat constructor.
  - unfold all_available.
    by rewrite (proj1 (start_charging_frame w user_id station_id now)).
  - unfold end_charging.
    destruct (get_user_by_id _ _); [|done]. simpl.
    by apply end_session_all_available.
  - unfold recargar_saldo_usuario.
    destruct (get_user_by_id _ _) as [user|]; [|done].
    destruct (user_objs (heap w) !! user); [|done].
    by destruct (recargar_saldo _ _).
  - unfold iniciar_mantenimiento.
    by destruct (PyDict.get id (maintenances _)).
  - unfold completar_mantenimiento.
    by destruct (PyDict.get id (maintenances _)).
Qed.

Lemma run_all_available ext w ops :
  all_available (heap w) → all_available (heap (run ext w ops)).
Proof.
  unfold run. revert w.
  induction ops as [|op ops IH]; intros w Hw; simpl; [done|].
  apply IH. by apply step_all_available.
Qed.

(** X9. In every state the service reaches from the empty one, by any
    sequence of its operations, every charger object has the status
    ["available"]: no operation of [ChargingService] ever marks a charger
    occupied. *)
Theorem reachable_all_available (ext : External) (ops : list Op) :
  all_available (heap (run ext world0 ops)).
Proof. apply run_all_available. constructor. Qed.

Lemma get_del_Some {K V} `{EqDecision K} (k k' : K) (d : dict K V) (v : V) :
  PyDict.get k' (PyDict.del k d) = Some v → PyDict.get k' d = Some v.
Proof.
  destruct (decide (k = k')) as [->|Hne].
  - by rewrite get_del_eq.
  - by rewrite get_del_ne.
Qed.

(** How the station found under an identifier after a step relates to the
    one found before it. *)
Lemma step_station_cases ext w op sid st :
  get_station (step ext w op) sid = Some st →
  get_station w sid = Some st
  ∨ st_chargers st = []
  ∨ ∃ st0,
      get_station w sid = Some st0
      ∧ st_chargers st
        = st_chargers st0 ++ [length (charger_objs (heap w))]
      ∧ is_Some (charger_objs (heap (step ext w op))
                   !! length (charger_objs (heap w))).
Proof.
  destruct op; simpl; try (by left).
  - unfold register_user. destruct (get_user_by_email _ _); by left.
  - unfold create_station, get_station. simpl.
    destruct (decide (id = sid)) as [->|Hne].
    + rewrite get_set_eq. intros [= <-]. right. by left.
    + rewrite get_set_ne by done. by left.
  - unfold delete_station, get_station.
    destruct (PyDict.contains _ _); simpl; [|by left].
    intros Hg. left. by eapply get_del_Some.
  - unfold add_charger_to_station.
    destruct (get_station w station_id) as [st0|] eqn:Hst0; [|by left].
    unfold get_station. simpl.
    destruct (decide (station_id = sid)) as [->|Hne].
    + rewrite get_set_eq. intros [= <-]. right. right.
      exists st0. repeat split; [done|].
      rewrite lookup_app_r by lia. rewrite Nat.sub_diag. simpl. eauto.
    + rewrite get_set_ne by done. by left.
  - unfold get_station.
    rewrite (proj1 (proj2 (start_charging_frame w user_id station_id now))).
    by left.
  - unfold end_charging.
    destruct (get_user_by_id _ _); [|by left]. unfold get_station. simpl.
    destruct (PyDict.contains _ _); by left.
  - unfold recargar_saldo_usuario.
    destruct (get_user_by_id _ _) as [user|]; [|by left].
    destruct (user_objs (heap w) !! user); [|by left].
    destruct (recargar_saldo _ _). by left.
  - unfold iniciar_mantenimiento.
    destruct (PyDict.get id (maintenances _)); by left.
  - unfold completar_mantenimiento.
    destruct (PyDict.get id (maintenances _)); by left.
Qed.

Lemma step_station_chargers_ok ext w op :
  station_chargers_ok w → station_chargers_ok (step ext w op).
Proof.
  intros Hok sid st Hst.
  assert (∀ c, is_Some (charger_objs (heap w) !! c) →
               is_Some (charger_objs (heap (step ext w op)) !! c)) as Hkeep.
  { intros c [ch Hc].
    destruct (step_keeps_charger_objs ext w op c ch Hc) as (ch' & Hc' & _).
    eauto. }
  destruct (step_station_cases ext w op sid st Hst)
    as [Hold|[Hnil|(st0 & Hst0 & Hl & Hnew)]].
  - eapply Forall_impl; [exact (Hok sid st Hold)|]. exact Hkeep.
  - rewrite Hnil. constructor.
  - rewrite Hl. apply Forall_app. split.
    + eapply Forall_impl; [exact (Hok sid st0 Hst0)|]. exact Hkeep.
    + by repeat constructor.
Qed.

Lemma reachable_station_chargers_ok ext ops :
  station_chargers_ok (run ext world0 ops).
Proof.
  unfold run.
  assert (station_chargers_ok world0) as H0 by (intros sid st; discriminate).
  revert H0. generalize world0.
  induction ops as [|op ops IH]; intros w Hw; simpl; [done|].
  apply IH. by apply step_station_chargers_ok.
Qed.

Lemma filter_all {A} (f : A → bool) (l : list A) :
  Forall (fun x => f x = true) l → List.filter f l = l.
Proof.
  induction 1 as [|x l Hx _ IH]; simpl; [done|]. by rewrite Hx, IH.
Qed.

Lemma filter_none {A} (f : A → bool) (l : list A) :
  Forall (fun x => f x = false) l → List.filter f l = [].
Proof.
  induction 1 as [|x l Hx _ IH]; simpl; [done|]. by rewrite Hx, IH.
Qed.

Lemma reachable_available_is_all ext ops sid st :
  get_station (run ext world0 ops) sid = Some st →
  get_available_chargers (heap (run ext world0 ops)) st = st_chargers st.
Proof.
  intros Hst. unfold get_available_chargers. apply filter_all.
  pose proof (reachable_station_chargers_ok ext ops sid st Hst) as Hok.
  pose proof (run_all_available ext world0 ops ltac:(constructor)) as Hall.
  eapply Forall_impl; [exact Hok|]. simpl.
  intros c [ch Hc]. unfold status_is. rewrite Hc.
  apply String.eqb_eq.
  exact (proj1 (Forall_lookup _ _) Hall c ch Hc).
Qed.

(** X10. In every state the service reaches from the empty one, every
    station lists all of its chargers as available, in the order they were
    added, even while sessions are open on them; so a [start_charging] there
    always picks the station's first charger. *)
Theorem reachable_station_always_free
    (ext : External) (ops : list Op) (sid : Z) (st : Station) :
  get_station (run ext world0 ops) sid = Some st →
  get_available_chargers (heap (run ext world0 ops)) st = st_chargers st
  ∧ head (get_available_chargers (heap (run ext world0 ops)) st)
    = head (st_chargers st).
Proof.
  intros Hst. by rewrite (reachable_available_is_all ext ops sid st Hst).
Qed.

Lemma reachable_station_always_free_witness :
  get_available_chargers (heap (run ext0 world0 ops_charging)) station1
  = [0%nat; 1%nat]
  ∧ head (get_available_chargers (heap (run ext0 world0 ops_charging))
            station1) = Some 0%nat.
Proof.
  apply (reachable_station_always_free ext0 ops_charging 1 station1).
  reflexivity.
Defined.

(** ** Reports *)

Lemma filter_length_le {A} (f : A → bool) (l : list A) :
  (length (List.filter f l) <= length l)%nat.
Proof. apply sublist_length, filter_sublist. Qed.

Lemma percentage_bounds (d t : Z) :
  0 <= d <= t → 0 < t →
  (0 <= inject_Z d / inject_Z t * 100 <= 100)%Q.
Proof.
  intros Hd Ht.
  assert (0 < inject_Z t)%Q as Htq.
  { change 0%Q with (inject_Z 0). rewrite <- Zlt_Qlt. done. }
  assert (0 <= inject_Z d)%Q as Hdq.
  { change 0%Q with (inject_Z 0). rewrite <- Zle_Qle. lia. }
  assert (inject_Z d <= inject_Z t)%Q as Hle.
  { rewrite <- Zle_Qle. lia. }
  assert (0 <= inject_Z d / inject_Z t)%Q as H0.
  { apply Qle_shift_div_l; [done|]. lra. }
  assert (inject_Z d / inject_Z t <= 1)%Q as H1.
  { apply Qle_shift_div_r; [done|]. lra. }
  split; lra.
Qed.

(** X11. [get_station_disponibilidad] answers with the error entry exactly
    for an unknown station.  For a known one the counts add up
    ([disponibles + ocupados = total_chargers], none negative), the
    percentage lies between 0 and 100, and it is 0 for a station without
    chargers. *)
Theorem get_station_disponibilidad_spec (w : World) (station_id : Z) :
  match get_station w station_id with
  | None =>
      get_station_disponibilidad w station_id = inl "Estación no encontrada"
  | Some st =>
      ∃ d,
        get_station_disponibilidad w station_id = inr d
        ∧ total_chargers d = Z.of_nat (length (st_chargers st))
        ∧ 0 <= disponibles d <= total_chargers d
        ∧ 0 <= ocupados d
        ∧ disponibles d + ocupados d = total_chargers d
        ∧ (0 <= porcentaje_disponibilidad d <= 100)%Q
        ∧ (st_chargers st = [] → porcentaje_disponibilidad d = 0%Q)
  end.
Proof.
  unfold get_station_disponibilidad.
  destruct (get_station w station_id) as [st|]; [|done].
  eexists. split; [reflexivity|]. simpl.
  pose proof (filter_length_le (status_is (heap w) "available")
                (st_chargers st)) as Hle.
  fold (get_available_chargers (heap w) st) in Hle.
  repeat split; try lia.
  - destruct (0 <? Z.of_nat (length (st_chargers st))) eqn:Ht; [|done].
    apply percentage_bounds; lia.
  - destruct (0 <? Z.of_nat (length (st_chargers st))) eqn:Ht; [|done].
    apply percentage_bounds; lia.
  - intros Hnil. by rewrite Hnil.
Qed.

(** X12. In every state the service reaches from the empty one, the two
    station reports never show an occupied charger:
    [get_station_disponibilidad] gives [ocupados = 0] with
    [disponibles = total_chargers], and [get_station_consumo] gives
    [sesiones_activas = 0]. *)
Theorem reachable_reports_show_nothing_occupied
    (ext : External) (ops : list Op) (sid : Z) (st : Station) :
  get_station (run ext world0 ops) sid = Some st →
  (∃ d, get_station_disponibilidad (run ext world0 ops) sid = inr d
        ∧ ocupados d = 0
        ∧ disponibles d = total_chargers d)
  ∧ (∃ c, get_station_consumo (run ext world0 ops) sid = inr c
          ∧ sesiones_activas c = 0).
Proof.
  intros Hst. split.
  - unfold get_station_disponibilidad. rewrite Hst.
    eexists. split; [reflexivity|]. simpl.
    rewrite (reachable_available_is_all ext ops sid st Hst). lia.
  - unfold get_station_consumo. rewrite Hst.
    eexists. split; [reflexivity|]. simpl.
    rewrite filter_none; [done|].
    apply Forall_forall. intros c _. unfold status_is.
    destruct (charger_objs (heap (run ext world0 ops)) !! c) as [ch|] eqn:Hc;
      [|done].
    rewrite (proj1 (Forall_lookup _ _)
               (run_all_available ext world0 ops ltac:(constructor)) c ch Hc).
    reflexivity.
Qed.

Lemma reachable_reports_show_nothing_occupied_witness :
  (∃ d, get_station_disponibilidad (run ext0 world0 ops_charging) 1 = inr d
        ∧ ocupados d = 0
        ∧ disponibles d = total_chargers d)
  ∧ (∃ c, get_station_consumo (run ext0 world0 ops_charging) 1 = inr c
          ∧ sesiones_activas c = 0).
Proof.
  apply (reachable_reports_show_nothing_occupied ext0 ops_charging 1 station1).
  reflexivity.
Defined.

(** ** Ending a charge through the service *)

(** X13. [end_charging] for an unknown user returns [False] and changes
    nothing.  For a known user it returns [True], whether or not a session
    was open; afterwards the active-session index has no entry for that user,
    the entries of other users and the other indexes are untouched, and when
    the user had no active session the object store is untouched too. *)
Theorem end_charging_spec (w : World) (user_id : UUID) (now : Z) :
  match get_user_by_id w user_id with
  | None => end_charging w user_id now = (w, false)
  | Some user =>
      snd (end_charging w user_id now) = true
      ∧ PyDict.get user_id
          (sessions (service (fst (end_charging w user_id now)))) = None
      ∧ (∀ k, k ≠ user_id →
           PyDict.get k (sessions (service (fst (end_charging w user_id now))))
           = PyDict.get k (sessions (service w)))
      ∧ stations (service (fst (end_charging w user_id now)))
        = stations (service w)
      ∧ chargers (service (fst (end_charging w user_id now)))
        = chargers (service w)
      ∧ users (service (fst (end_charging w user_id now)))
        = users (service w)
      ∧ maintenances (service (fst (end_charging w user_id now)))
        = maintenances (service w)
      ∧ (∀ u, user_objs (heap w) !! user = Some u →
              active_session u = None →
              heap (fst (end_charging w user_id now)) = heap w)
  end.
Proof.
  unfold end_charging.
  destruct (get_user_by_id w user_id) as [user|]; [|done]. simpl.
  unfold PyDict.contains.
  destruct (PyDict.get user_id (sessions (service w))) eqn:Hidx; simpl.
  - repeat split; try done.
    + apply get_del_eq.
    + intros k Hk. by apply get_del_ne.
    + intros u Hu Hact. unfold end_session. by rewrite Hu, Hact.
  - repeat split; try done.
    intros u Hu Hact. unfold end_session. by rewrite Hu, Hact.
Qed.

(** What [User.end_session] does on a user whose active session is in the
    store. *)
Lemma end_session_active h self u s ses now :
  user_objs h !! self = Some u →
  active_session u = Some s →
  session_objs h !! s = Some ses →
  end_session h self now =
    let coste :=
      (float_of_int (get_duration (Session_end ses now) now)
        * kwh_per_minute * get_tarifa u)%float in
    let u1 := fst (descontar_saldo u coste) in
    {| charger_objs := alter stop_charge (se_charger ses) (charger_objs h);
       user_objs :=
         <[self := set_active_session
                     (set_sessions_history u1 (sessions_history u1 ++ [s]))
                     None]> (user_objs h);
       session_objs := <[s := Session_end ses now]> (session_objs h) |}.
Proof.
  intros Hu Hact Hses. unfold end_session. by rewrite Hu, Hact, Hses.
Qed.

(** X14. A [start_charging] that succeeds, followed by [end_charging] for
    the same user: every charger object is as before the pair of calls, so
    the station lists the same available chargers; the session created in
    between is the last of the store, from the start instant to the instant
    of [end_charging]; the user has no active session, one more entry in the
    history and a balance debited by the session's cost, in double
    precision, when it covered it, and is otherwise as before; and the index
    holds no entry for the user. *)
Theorem start_then_end_charging
    (w : World) (user_id : UUID) (station_id t_start t_stop : Z)
    (user : ref) (u : User) (st : Station) (c : ref) (rest : list ref) :
  get_user_by_id w user_id = Some user →
  user_objs (heap w) !! user = Some u →
  u_id u = user_id →
  get_station w station_id = Some st →
  get_available_chargers (heap w) st = c :: rest →
  let w1 := fst (start_charging w user_id station_id t_start) in
  let w2 := fst (end_charging w1 user_id t_stop) in
  let s := length (session_objs (heap w)) in
  let coste :=
    (float_of_int (td_seconds (datetime_sub t_stop t_start) / 60) * 0.5
     * (if String.eqb (user_type u) "empresa" then 0.25 else 0.3))%float in
  charger_objs (heap w2) = charger_objs (heap w)
  ∧ get_available_chargers (heap w2) st = c :: rest
  ∧ session_objs (heap w2)
    = session_objs (heap w)
      ++ [{| se_user := user; se_charger := c; start_time := t_start;
             end_time := Some t_stop |}]
  ∧ PyDict.get user_id (sessions (service w2)) = None
  ∧ user_objs (heap w2)
    = <[user := {| u_id := u_id u; u_name := u_name u;
                   u_email := u_email u; password_hash := password_hash u;
                   user_type := user_type u; active_session := None;
                   saldo := if (coste <=? saldo u)%float
                            then (saldo u - coste)%float else saldo u;
                   sessions_history := sessions_history u ++ [s] |}]>
        (user_objs (heap w)).
Proof.
  intros Hid Hu Huid Hst Hav. cbv zeta.
  destruct (get_available_chargers_status (heap w) st c) as (ch & Hc & Hs).
  { rewrite Hav. by left. }
  rewrite (start_charging_success w user_id station_id t_start user u st c rest)
    by done.
  simpl. unfold end_charging, get_user_by_id. simpl.
  unfold get_user_by_id in Hid. rewrite Hid. simpl.
  assert (user < length (user_objs (heap w)))%nat as Hlt
    by (by eapply lookup_lt_Some).
  rewrite (end_session_active _ user
             (set_active_session u (Some (length (session_objs (heap w)))))
             (length (session_objs (heap w)))
             (Session_init user c t_start) t_stop); simpl.
  2: { by apply list_lookup_insert_eq. }
  2: { done. }
  2: { rewrite lookup_app_r by lia. by rewrite Nat.sub_diag. }
  assert (alter stop_charge c (charger_objs (heap w)) = charger_objs (heap w))
    as Halt.
  { apply (alter_fixed _ _ _ ch Hc). apply stop_charge_not_ocupado.
    by rewrite Hs. }
  rewrite Halt. repeat split.
  - rewrite <- Hav. reflexivity.
  - rewrite insert_app_r_alt by lia. by rewrite Nat.sub_diag.
  - unfold PyDict.contains. rewrite Huid, get_set_eq. simpl. apply get_del_eq.
  - rewrite list_insert_insert_eq. f_equal.
    unfold descontar_saldo, tiene_saldo_suficiente, get_tarifa,
      get_duration, kwh_per_minute. simpl.
    by destruct (_ <=? saldo u)%float.
Qed.

Lemma start_then_end_charging_witness :
  charger_objs (heap (fst (end_charging w_charging 7 t_end)))
  = charger_objs (heap w_ana)
  ∧ session_objs (heap (fst (end_charging w_charging 7 t_end)))
    = [{| se_user := 0%nat; se_charger := 0%nat; start_time := t0;
          end_time := Some t_end |}]
  ∧ PyDict.get 7 (sessions (service (fst (end_charging w_charging 7 t_end))))
    = None
  ∧ (saldo <$> user_objs (heap (fst (end_charging w_charging 7 t_end)))
                 !! 0%nat) = Some 98.5%float.
Proof.
  destruct (start_then_end_charging w_ana 7 1 t0 t_end 0%nat
              (User_init 7 "Ana" "ana@example.com"
                 (hash_password ext0 "salt" "password123") "individual" 100)
              (add_charger (Station_init 1 "Estacion Central" "Vigo") 0%nat)
              0%nat [] eq_refl eq_refl eq_refl eq_refl eq_refl)
    as (Hch & _ & Hses & Hidx & Hus).
  split; [exact Hch|]. split; [exact Hses|]. split; [exact Hidx|].
  change (end_charging w_charging 7 t_end)
    with (end_charging (fst (start_charging w_ana 7 1 t0)) 7 t_end).
  rewrite Hus. reflexivity.
Defined.

(** ** Balance through the service *)

(** X15. When [recargar_saldo_usuario] returns [False] (unknown user, or an
    amount with [cantidad <= 0]) the whole state is exactly as before.  When
    it returns [True] the user is known, [cantidad <= 0] is false, and the
    only change is that user's balance, which becomes the double-precision
    sum of the balance and the amount. *)
Theorem recargar_saldo_usuario_spec (w : World) (user_id : UUID) (a : float) :
  (snd (recargar_saldo_usuario w user_id a) = false →
   fst (recargar_saldo_usuario w user_id a) = w)
  ∧ (snd (recargar_saldo_usuario w user_id a) = true →
     ∃ user u,
       get_user_by_id w user_id = Some user
       ∧ user_objs (heap w) !! user = Some u
       ∧ (a <=? 0)%float = false
       ∧ fst (recargar_saldo_usuario w user_id a)
         = {| heap := set_user_objs (heap w)
                        (<[user := set_saldo u (saldo u + a)%float]>
                           (user_objs (heap w)));
              service := service w |}).
Proof.
  unfold recargar_saldo_usuario.
  destruct (get_user_by_id w user_id) as [user|]; [|done].
  destruct (user_objs (heap w) !! user) as [u|] eqn:Hu; [|done].
  unfold recargar_saldo.
  destruct (a <=? 0)%float eqn:Ha; simpl.
  - split; [|done]. intros _.
    rewrite list_insert_id by done.
    by destruct w as [[] ?].
  - split; [done|]. intros _. by exists user, u.
Qed.

(** X16. [descontar_saldo] refuses, touching nothing, exactly when
    [saldo >= cantidad] is false; otherwise the balance becomes the
    double-precision difference of balance and amount and nothing else
    changes.  It does not test the sign of the amount: a negative amount is
    accepted on any balance that is at least zero. *)
Theorem descontar_saldo_spec (u : User) (a : float) :
  ((a <=? saldo u)%float = false → descontar_saldo u a = (u, false))
  ∧ ((a <=? saldo u)%float = true →
     descontar_saldo u a = (set_saldo u (saldo u - a)%float, true))
  ∧ ((a <? 0)%float = true → (0 <=? saldo u)%float = true →
     descontar_saldo u a = (set_saldo u (saldo u - a)%float, true)).
Proof.
  unfold descontar_saldo, tiene_saldo_suficiente.
  split; [|split].
  - by intros ->.
  - by intros ->.
  - intros Ha Hu. by rewrite (neg_leb_nonneg a (saldo u) Ha Hu).
Qed.

Lemma descontar_saldo_spec_witness :
  descontar_saldo
    (User_init 7 "Ana" "ana@example.com" "h" "individual" 100) 250
  = (User_init 7 "Ana" "ana@example.com" "h" "individual" 100, false)
  ∧ descontar_saldo
      (User_init 7 "Ana" "ana@example.com" "h" "individual" 100) (-5)
    = (User_init 7 "Ana" "ana@example.com" "h" "individual" 105, true).
Proof.
  split.
  - apply (descontar_saldo_spec
             (User_init 7 "Ana" "ana@example.com" "h" "individual" 100) 250).
    reflexivity.
  - apply (descontar_saldo_spec
             (User_init 7 "Ana" "ana@example.com" "h" "individual" 100) (-5));
      reflexivity.
Defined.

Lemma start_session_saldos (P : float → Prop) h self c now :
  Forall (fun u => P (saldo u)) (user_objs h) →
  Forall (fun u => P (saldo u)) (user_objs (fst (start_session h self c now))).
Proof.
  unfold start_session. intros Hh.
  destruct (user_objs h !! self) as [u|] eqn:Hu; [|done].
  destruct (charger_objs h !! c); [|done].
  destruct (_ || _); [|done]. simpl.
  apply Forall_insert; [done|]. simpl.
  exact (proj1 (Forall_lookup _ _) Hh self u Hu).
Qed.

Lemma step_keeps_balances_not_below ext w op :
  ¬ negative_registration op →
  balances_not_below_zero (heap w) →
  balances_not_below_zero (heap (step ext w op)).
Proof.
  intros Hop Hh.
  destruct op; simpl; try done.
  - unfold register_user. destruct (get_user_by_email _ _); simpl; [done|].
    unfold balances_not_below_zero. simpl. apply Forall_app. split; [done|].
    constructor; [|done]. simpl. simpl in Hop. unfold not_below_zero.
    by destruct (saldo_inicial <? 0)%float.
  - unfold delete_station. by destruct (PyDict.contains _ _).
  - unfold add_charger_to_station. by destruct (get_station _ _).
  - unfold start_charging.
    destruct (get_user_by_id _ _) as [user|]; [|done].
    destruct (get_station _ _); [|done].
    destruct (get_available_chargers _ _) as [|c rest]; [done|].
    pose proof (start_session_saldos not_below_zero (heap w) user c now Hh)
      as Hs.
    destruct (start_session _ _ _ _) as [h [session|]]; [|done].
    by destruct (session_user_id _ _).
  - unfold end_charging.
    destruct (get_user_by_id _ _); [|done]. simpl.
    by apply end_session_not_below.
  - unfold recargar_saldo_usuario.
    destruct (get_user_by_id _ _) as [user|]; [|done].
    destruct (user_objs (heap w) !! user) as [u0|] eqn:Hu0; [|done].
    pose proof (recargar_saldo_not_below u0 cantidad
                  (proj1 (Forall_lookup _ _) Hh user u0 Hu0)) as Hr.
    destruct (recargar_saldo u0 cantidad) as [u1 ok]. simpl.
    unfold balances_not_below_zero. simpl. by apply Forall_insert.
  - unfold iniciar_mantenimiento.
    by destruct (PyDict.get id (maintenances _)).
  - unfold completar_mantenimiento.
    by destruct (PyDict.get id (maintenances _)).
Qed.

Lemma step_keeps_balances_nonneg ext w op :
  sane_amounts op →
  balances_nonneg (heap w) → balances_nonneg (heap (step ext w op)).
Proof.
  intros Hop Hh.
  destruct op; simpl; try done.
  - unfold register_user. destruct (get_user_by_email _ _); simpl; [done|].
    unfold balances_nonneg. simpl. apply Forall_app. split; [done|].
    by constructor.
  - unfold delete_station. by destruct (PyDict.contains _ _).
  - unfold add_charger_to_station. by destruct (get_station _ _).
  - unfold start_charging.
    destruct (get_user_by_id _ _) as [user|]; [|done].
    destruct (get_station _ _); [|done].
    destruct (get_available_chargers _ _) as [|c rest]; [done|].
    pose proof (start_session_saldos fnonneg (heap w) user c now Hh) as Hs.
    destruct (start_session _ _ _ _) as [h [session|]]; [|done].
    by destruct (session_user_id _ _).
  - unfold end_charging.
    destruct (get_user_by_id _ _); [|done]. simpl.
    by apply end_session_nonneg.
  - unfold recargar_saldo_usuario.
    destruct (get_user_by_id _ _) as [user|]; [|done].
    destruct (user_objs (heap w) !! user) as [u0|] eqn:Hu0; [|done].
    pose proof (recargar_saldo_nonneg u0 cantidad Hop
                  (proj1 (Forall_lookup _ _) Hh user u0 Hu0)) as Hr.
    destruct (recargar_saldo u0 cantidad) as [u1 ok]. simpl.
    unfold balances_nonneg. simpl. by apply Forall_insert.
  - unfold iniciar_mantenimiento.
    by destruct (PyDict.get id (maintenances _)).
  - unfold completar_mantenimiento.
    by destruct (PyDict.get id (maintenances _)).
Qed.

(** X17. Starting from the empty service, as long as no registration asks
    for an initial balance below zero, no sequence of service operations
    leaves any user with a balance below zero, whatever the amounts
    (infinities and NaN included).  And when every initial balance is at
    least zero and no recharge amount is NaN, every balance is at least
    zero. *)
Theorem reachable_balances_nonneg (ext : External) (ops : list Op) :
  (Forall (fun op => ¬ negative_registration op) ops →
   balances_not_below_zero (heap (run ext world0 ops)))
  ∧ (Forall sane_amounts ops →
     balances_nonneg (heap (run ext world0 ops))).
Proof.
  unfold run. split.
  - assert (balances_not_below_zero (heap world0)) as H0 by constructor.
    revert H0. generalize world0.
    induction ops as [|op ops IH]; intros w Hw Hops; simpl; [done|].
    apply Forall_cons in Hops as [Hop Hrest].
    apply IH; [|done]. by apply step_keeps_balances_not_below.
  - assert (balances_nonneg (heap world0)) as H0 by constructor.
    revert H0. generalize world0.
    induction ops as [|op ops IH]; intros w Hw Hops; simpl; [done|].
    apply Forall_cons in Hops as [Hop Hrest].
    apply IH; [|done]. by apply step_keeps_balances_nonneg.
Qed.

Lemma reachable_balances_nonneg_witness :
  balances_not_below_zero
    (heap (run ext0 world0
             (ops_charging ++ [OpRecargarSaldo 7 nan; OpEndCharging 7 t_end])))
  ∧ balances_nonneg
      (heap (run ext0 world0 (ops_charging ++ [OpEndCharging 7 t_end]))).
Proof.
  split.
  - apply (reachable_balances_nonneg ext0
             (ops_charging ++ [OpRecargarSaldo 7 nan; OpEndCharging 7 t_end])).
    repeat constructor; simpl; try tauto.
    vm_compute. discriminate.
  - apply (reachable_balances_nonneg ext0
             (ops_charging ++ [OpEndCharging 7 t_end])).
    repeat constructor.
Defined.

(** ** Credentials *)

Lemma In_set {K V} `{EqDecision K} (k k' : K) (v v' : V) (d : dict K V) :
  In (k', v') (PyDict.set k v d) → (k', v') = (k, v) ∨ In (k', v') d.
Proof.
  induction d as [|[k0 v0] d IH]; simpl.
  - intros [Heq|[]]. by left.
  - destruct (decide (k = k0)) as [->|Hne]; simpl.
    + intros [Heq|Hin]; [by left|]. right. by right.
    + intros [Heq|Hin]; [right; by left|].
      destruct (IH Hin) as [?|?]; [by left|]. right. by right.
Qed.

Lemma get_user_by_email_None_inv (w : World) (email : string) :
  get_user_by_email w email = None → ¬ email_registered w email.
Proof.
  intros Hnone Hreg. apply get_user_by_email_Some in Hreg as [r Hr].
  congruence.
Qed.

Lemma get_user_by_email_carries (w : World) (email : string) (r : ref) :
  get_user_by_email w email = Some r →
  In r (PyDict.values (users (service w)))
  ∧ ∃ u, user_objs (heap w) !! r = Some u ∧ u_email u = email.
Proof.
  intros Hr. unfold get_user_by_email in Hr.
  apply find_some in Hr as [Hin He]. split; [done|].
  unfold email_is in He.
  destruct (user_objs (heap w) !! r) as [u|]; [|done].
  exists u. split; [done|]. by apply String.eqb_eq.
Qed.

(** X18. [get_user_by_email] returns nothing exactly when no stored user
    carries the email; and a user it returns is a stored user that carries
    it. *)
Theorem get_user_by_email_spec (w : World) (email : string) :
  (get_user_by_email w email = None ↔ ¬ email_registered w email)
  ∧ ∀ r,
      get_user_by_email w email = Some r →
      In r (PyDict.values (users (service w)))
      ∧ ∃ u, user_objs (heap w) !! r = Some u ∧ u_email u = email.
Proof.
  split.
  - split; [apply get_user_by_email_None_inv|apply get_user_by_email_None].
  - apply get_user_by_email_carries.
Qed.

(** After a registration with an unused email, looking the email up finds
    the user just created. *)
Lemma register_user_then_lookup ext w new_id salt name email password utype
    saldo_inicial :
  ¬ email_registered w email →
  get_user_by_email
    (fst (register_user ext w new_id salt name email password utype
            saldo_inicial)) email
  = Some (length (user_objs (heap w))).
Proof.
  intros Hfresh.
  unfold register_user. rewrite (get_user_by_email_None w email Hfresh).
  simpl. unfold get_user_by_email. simpl.
  set (nu := User_init new_id name email (hash_password ext salt password)
               utype saldo_inicial).
  set (r := length (user_objs (heap w))).
  set (f := email_is
              (set_user_objs (heap w) (user_objs (heap w) ++ [nu])) email).
  assert (f r = true) as Hr.
  { unfold f, email_is. simpl. rewrite lookup_app_r by (unfold r; lia).
    unfold r. rewrite Nat.sub_diag. simpl. apply String.eqb_refl. }
  assert (In r (PyDict.values (PyDict.set new_id r (users (service w)))))
    as Hin.
  { unfold PyDict.values. apply in_map_iff. exists (new_id, r).
    split; [done|]. apply get_Some_In. apply get_set_eq. }
  destruct (find f _) as [x|] eqn:Hf.
  - apply find_some in Hf as [Hx Hfx]. f_equal.
    unfold PyDict.values in Hx. apply in_map_iff in Hx as ([k x'] & Heq & Hx).
    simpl in Heq. subst x'.
    apply In_set in Hx as [[= _ ->]|Hold]; [done|].
    unfold f, email_is in Hfx. simpl in Hfx.
    destruct (decide (x < r)%nat) as [Hlt|Hge].
    + rewrite lookup_app_l in Hfx by done.
      destruct (user_objs (heap w) !! x) as [u|] eqn:Hu; [|done].
      exfalso. apply Hfresh. exists x, u. repeat split; [|done|].
      * unfold PyDict.values. apply in_map_iff. by exists (k, x).
      * by apply String.eqb_eq.
    + destruct (decide (x = r)) as [->|Hne]; [done|].
      rewrite lookup_ge_None_2 in Hfx; [done|].
      rewrite length_app. simpl. unfold r in *. lia.
  - eapply find_none in Hf; [|exact Hin]. congruence.
Qed.

(** X19. Registering with an unused email and then authenticating with the
    same email and password succeeds and returns the user just created,
    provided the password context accepts the hash it produced for that
    password. *)
Theorem register_then_authenticate
    (ext : External) (pwd_context_verify : string → string → option bool)
    (w : World) (new_id : UUID) (salt name email password utype : string)
    (saldo_inicial : float) :
  ¬ email_registered w email →
  pwd_context_verify
    (decode_utf8_ignore ext (take 72 (encode_utf8 ext password)))
    (hash_password ext salt password) = Some true →
  authenticate_user ext pwd_context_verify
    (fst (register_user ext w new_id salt name email password utype
            saldo_inicial)) email password
  = Some (length (user_objs (heap w))).
Proof.
  intros Hfresh Hverify. unfold authenticate_user.
  rewrite register_user_then_lookup by done.
  unfold register_user. rewrite (get_user_by_email_None w email Hfresh).
  simpl. rewrite lookup_app_r by lia. rewrite Nat.sub_diag. simpl.
  unfold verify_password. by rewrite Hverify.
Qed.

Lemma register_then_authenticate_witness :
  authenticate_user ext0 verify0 w_ana "ana@example.com" "password123"
  = Some 0%nat.
Proof.
  apply (register_then_authenticate ext0 verify0 w_station 7 "salt" "Ana"
           "ana@example.com" "password123" "individual" 100).
  - intros (r & u & Hin & _). exact Hin.
  - reflexivity.
Defined.

(** X20. [authenticate_user] returns a user only if that stored user
    carries the email and [verify_password] accepts the password against its
    stored hash; for an email no stored user carries it returns nothing. *)
Theorem authenticate_user_sound
    (ext : External) (pwd_context_verify : string → string → option bool)
    (w : World) (email password : string) :
  (∀ r,
     authenticate_user ext pwd_context_verify w email password = Some r →
     ∃ u, user_objs (heap w) !! r = Some u
          ∧ u_email u = email
          ∧ verify_password ext pwd_context_verify password
              (password_hash u) = true)
  ∧ (¬ email_registered w email →
     authenticate_user ext pwd_context_verify w email password = None).
Proof.
  unfold authenticate_user. split.
  - intros r.
    destruct (get_user_by_email w email) as [user|] eqn:He; [|done].
    apply get_user_by_email_carries in He as [_ (u & Hu & Hemail)].
    rewrite Hu.
    destruct (verify_password _ _ _ _) eqn:Hv; simpl; [|done].
    intros [= <-]. by exists u.
  - intros Hfresh. by rewrite (get_user_by_email_None w email Hfresh).
Qed.

(** X21. Only the first 72 bytes of a password's UTF-8 encoding count: two
    passwords that agree on them get the same hash under the same salt, and
    [verify_password] accepts one exactly when it accepts the other. *)
Theorem password_truncated_to_72_bytes
    (ext : External) (pwd_context_verify : string → string → option bool)
    (p1 p2 salt hashed : string) :
  take 72 (encode_utf8 ext p1) = take 72 (encode_utf8 ext p2) →
  hash_password ext salt p1 = hash_password ext salt p2
  ∧ verify_password ext pwd_context_verify p1 hashed
    = verify_password ext pwd_context_verify p2 hashed.
Proof.
  intros Heq. unfold hash_password, verify_password. by rewrite Heq.
Qed.

Lemma password_truncated_to_72_bytes_witness :
  hash_password ext0 "salt" (pw72 ++ "-first")
  = hash_password ext0 "salt" (pw72 ++ "-second")
  ∧ verify_password ext0 verify0 (pw72 ++ "-first")
      (hash_password ext0 "salt" (pw72 ++ "-second"))
    = verify_password ext0 verify0 (pw72 ++ "-second")
        (hash_password ext0 "salt" (pw72 ++ "-second")).
Proof.
  apply (password_truncated_to_72_bytes ext0 verify0 (pw72 ++ "-first")
           (pw72 ++ "-second") "salt"
           (hash_password ext0 "salt" (pw72 ++ "-second"))).
  reflexivity.
Defined.

(** ** Maintenances *)

Lemma length_set_existing {K V} `{EqDecision K} (k : K) (v v' : V)
    (d : dict K V) :
  PyDict.get k d = Some v → length (PyDict.set k v' d) = length d.
Proof.
  induction d as [|[k0 v0] d IH]; simpl; [done|].
  destruct (decide (k = k0)); simpl; [done|]. intros Hg. by rewrite IH.
Qed.


(** X23. [iniciar_mantenimiento] and [completar_mantenimiento] on an
    unknown identifier return nothing and change nothing.  On a known one
    they set the state to ["en_proceso"], respectively ["completado"] with
    the given notes stored verbatim, whatever the state was before (a
    completed maintenance can be started again); the identifier, date,
    technician, kind and station of the maintenance stay, and so does the
    number of maintenances. *)
Theorem maintenance_transitions (w : World) (id : Z) (notas_ : string) :
  match get_mantenimiento w id with
  | None =>
      iniciar_mantenimiento w id = (w, None)
      ∧ completar_mantenimiento w id notas_ = (w, None)
  | Some m =>
      let wi := iniciar_mantenimiento w id in
      let wc := completar_mantenimiento w id notas_ in
      let same := fun m' =>
        id_mantenimiento m' = id_mantenimiento m ∧ fecha m' = fecha m
        ∧ tecnico m' = tecnico m ∧ tipo m' = tipo m
        ∧ estacion_id m' = estacion_id m ∧ variant m' = variant m in
      (∃ mi, snd wi = Some mi
             ∧ get_mantenimiento (fst wi) id = Some mi
             ∧ estado mi = "en_proceso" ∧ notas mi = notas m ∧ same mi)
      ∧ (∃ mc, snd wc = Some mc
               ∧ get_mantenimiento (fst wc) id = Some mc
               ∧ estado mc = "completado" ∧ notas mc = notas_ ∧ same mc)
      ∧ length (listar_mantenimientos (fst wi) None)
        = length (listar_mantenimientos w None)
      ∧ length (listar_mantenimientos (fst wc) None)
        = length (listar_mantenimientos w None)
  end.
Proof.
  unfold get_mantenimiento, iniciar_mantenimiento, completar_mantenimiento.
  destruct (PyDict.get id (maintenances (service w))) as [m|] eqn:Hm;
    [|done].
  cbv zeta. simpl. repeat split.
  - exists (iniciar m). repeat split. apply get_set_eq.
  - exists (marcar_completado m notas_). repeat split. apply get_set_eq.
  - unfold listar_mantenimientos, PyDict.values. simpl.
    rewrite !length_map. by eapply length_set_existing.
  - unfold listar_mantenimientos, PyDict.values. simpl.
    rewrite !length_map. by eapply length_set_existing.
Qed.

(** X24. With a station filter other than 0, [listar_mantenimientos]
    returns exactly the maintenances of the registry assigned to that
    station, in registry order. *)
Theorem listar_mantenimientos_filtered (w : World) (station_id : Z) :
  station_id ≠ 0 →
  sublist (listar_mantenimientos w (Some station_id))
    (listar_mantenimientos w None)
  ∧ ∀ m,
      In m (listar_mantenimientos w (Some station_id))
      ↔ In m (listar_mantenimientos w None)
        ∧ estacion_id m = Some station_id.
Proof.
  intros Hnz. unfold listar_mantenimientos. simpl.
  destruct (Z.eqb_spec station_id 0) as [?|_]; [done|]. simpl.
  split; [apply filter_sublist|].
  intros m. rewrite filter_In. unfold estacion_is.
  split; intros [Hin He]; (split; [done|]).
  - destruct (estacion_id m) as [a|]; [|done].
    apply Z.eqb_eq in He. by subst.
  - rewrite He. apply Z.eqb_refl.
Qed.

Lemma listar_mantenimientos_filtered_witness :
  sublist
    (listar_mantenimientos
       (fst (programar_mantenimiento_preventivo ext0 world0 5001 2
               "2025-11-20" "Ana" "mensual" t0)) (Some 2))
    (listar_mantenimientos
       (fst (programar_mantenimiento_preventivo ext0 world0 5001 2
               "2025-11-20" "Ana" "mensual" t0)) None).
Proof.
  apply (listar_mantenimientos_filtered
           (fst (programar_mantenimiento_preventivo ext0 world0 5001 2
                   "2025-11-20" "Ana" "mensual" t0)) 2).
  discriminate.
Defined.

(** ** The station and charger indexes *)

(** X25. [create_station] stores a station without chargers under the
    identifier, also when the identifier is already in use: the earlier
    station is replaced, keeping its place in [list_stations], while the
    charger index and the object store stay as they were (the replaced
    station's chargers remain retrievable by id).  A new identifier goes last
    in [list_stations]; other stations are untouched. *)
Theorem create_station_spec (w : World) (id : Z) (name location : string) :
  let w' := create_station w id name location in
  get_station w' id = Some (Station_init id name location)
  ∧ (∀ k, k ≠ id → get_station w' k = get_station w k)
  ∧ (get_station w id = None →
     list_stations w' = list_stations w ++ [Station_init id name location])
  ∧ (is_Some (get_station w id) →
     length (list_stations w') = length (list_stations w))
  ∧ heap w' = heap w
  ∧ chargers (service w') = chargers (service w).
Proof.
  cbv zeta. unfold get_station, list_stations, create_station. simpl.
  repeat split.
  - apply get_set_eq.
  - intros k Hk. by apply get_set_ne.
  - intros Hnone. rewrite set_fresh by done.
    unfold PyDict.values. by rewrite map_app.
  - intros [st Hst]. unfold PyDict.values. rewrite !length_map.
    by eapply length_set_existing.
Qed.

(** X26. [add_charger_to_station] on an unknown station returns nothing and
    changes nothing.  On a known one it creates one charger object with the
    given id and type and the status ["available"], appends it to the
    station, where it is listed as available, and points the charger index
    entry of that id to it, without checking whether the id was already in
    use (a new id goes last in [list_chargers]); entries of other ids and
    other stations are untouched. *)
Theorem add_charger_to_station_spec
    (w : World) (station_id charger_id : Z) (charger_type : string) :
  match get_station w station_id with
  | None =>
      add_charger_to_station w station_id charger_id charger_type = (w, None)
  | Some st =>
      let c := length (charger_objs (heap w)) in
      ∃ w',
        add_charger_to_station w station_id charger_id charger_type
        = (w', Some c)
        ∧ charger_objs (heap w')
          = charger_objs (heap w) ++ [Charger_init charger_id charger_type]
        ∧ get_charger w' charger_id = Some c
        ∧ get_station w' station_id = Some (add_charger st c)
        ∧ In c (get_available_chargers (heap w') (add_charger st c))
        ∧ (∀ k, k ≠ charger_id → get_charger w' k = get_charger w k)
        ∧ (get_charger w charger_id = None →
           list_chargers w' = list_chargers w ++ [c])
        ∧ (∀ k, k ≠ station_id → get_station w' k = get_station w k)
        ∧ user_objs (heap w') = user_objs (heap w)
        ∧ session_objs (heap w') = session_objs (heap w)
  end.
Proof.
  unfold add_charger_to_station.
  destruct (get_station w station_id) as [st|] eqn:Hst; [|done].
  cbv zeta. eexists. split; [reflexivity|].
  unfold get_charger, get_station, list_chargers. simpl. repeat split.
  - apply get_set_eq.
  - apply get_set_eq.
  - apply get_available_chargers_In. split.
    + simpl. apply in_or_app. right. by left.
    + exists (Charger_init charger_id charger_type). split; [|done].
      simpl. rewrite lookup_app_r by lia. by rewrite Nat.sub_diag.
  - intros k Hk. by apply get_set_ne.
  - intros Hnone. rewrite set_fresh by done.
    unfold PyDict.values. by rewrite map_app.
  - intros k Hk. by apply get_set_ne.
Qed.

(** X27. [delete_station] on an unknown identifier returns [False] and
    changes nothing.  In every case the other stations, the user index, the
    active-session index and the maintenances stay as they were: sessions on
    the station's chargers and maintenances assigned to it are not removed
    with it. *)
Theorem delete_station_frame (w : World) (station_id : Z) :
  (get_station w station_id = None →
   delete_station w station_id = (w, false))
  ∧ (∀ k, k ≠ station_id →
       get_station (fst (delete_station w station_id)) k = get_station w k)
  ∧ users (service (fst (delete_station w station_id))) = users (service w)
  ∧ sessions (service (fst (delete_station w station_id)))
    = sessions (service w)
  ∧ maintenances (service (fst (delete_station w station_id)))
    = maintenances (service w).
Proof.
  unfold delete_station, get_station, PyDict.contains.
  destruct (PyDict.get station_id (stations (service w))) eqn:Hg; simpl.
  - repeat split; try done. intros k Hk. by apply get_del_ne.
  - repeat split; done.
Qed.

(** ** Users over time *)

Lemma user_evolves_refl u : user_evolves u u.
Proof. by repeat split. Qed.

Lemma user_evolves_trans u1 u2 u3 :
  user_evolves u1 u2 → user_evolves u2 u3 → user_evolves u1 u3.
Proof.
  intros (? & ? & ? & ? & ? & Hp1) (? & ? & ? & ? & ? & Hp2).
  repeat split; try congruence. by etrans.
Qed.

Lemma descontar_saldo_evolves u a : user_evolves u (fst (descontar_saldo u a)).
Proof.
  unfold descontar_saldo, tiene_saldo_suficiente.
  destruct (a <=? saldo u)%float; by repeat split.
Qed.

Lemma recargar_saldo_evolves u a : user_evolves u (fst (recargar_saldo u a)).
Proof.
  unfold recargar_saldo. destruct (a <=? 0)%float; by repeat split.
Qed.

Lemma start_session_evolves h self c now r u :
  user_objs h !! r = Some u →
  ∃ u', user_objs (fst (start_session h self c now)) !! r = Some u'
        ∧ user_evolves u u'.
Proof.
  intros Hr. unfold start_session.
  destruct (user_objs h !! self) as [u0|] eqn:Hself;
    [|eauto using user_evolves_refl].
  destruct (charger_objs h !! c); [|eauto using user_evolves_refl].
  destruct (_ || _); [|eauto using user_evolves_refl]. simpl.
  destruct (decide (self = r)) as [->|Hne].
  - rewrite list_lookup_insert_eq by (by eapply lookup_lt_Some).
    eexists. split; [done|].
    assert (u0 = u) as -> by congruence. by repeat split.
  - rewrite list_lookup_insert_ne by done. eauto using user_evolves_refl.
Qed.

Lemma end_session_evolves h self now r u :
  user_objs h !! r = Some u →
  ∃ u', user_objs (end_session h self now) !! r = Some u'
        ∧ user_evolves u u'.
Proof.
  intros Hr. unfold end_session.
  destruct (user_objs h !! self) as [u0|] eqn:Hself;
    [|eauto using user_evolves_refl].
  destruct (active_session u0) as [s|]; [|eauto using user_evolves_refl].
  destruct (session_objs h !! s) as [ses|]; [|eauto using user_evolves_refl].
  simpl.
  destruct (decide (self = r)) as [->|Hne].
  - rewrite list_lookup_insert_eq by (by eapply lookup_lt_Some).
    eexists. split; [done|].
    assert (u0 = u) as -> by congruence.
    destruct (descontar_saldo_evolves u
      (float_of_int (get_duration (Session_end ses now) now)
        * kwh_per_minute * get_tarifa u)%float) as (? & ? & ? & ? & ? & Hp).
    repeat split; simpl; try done.
    etrans; [exact Hp|]. by apply prefix_app_r.
  - rewrite list_lookup_insert_ne by done. eauto using user_evolves_refl.
Qed.

Lemma step_user_evolves ext w op r u :
  user_objs (heap w) !! r = Some u →
  ∃ u', user_objs (heap (step ext w op)) !! r = Some u' ∧ user_evolves u u'.
Proof.
  intros Hr.
  destruct op; simpl; eauto using user_evolves_refl.
  - unfold register_user.
    destruct (get_user_by_email _ _); simpl; [eauto using user_evolves_refl|].
    exists u. split; [|apply user_evolves_refl].
    rewrite lookup_app_l; [done|]. by eapply lookup_lt_Some.
  - unfold delete_station.
    destruct (PyDict.contains _ _); simpl; eauto using user_evolves_refl.
  - unfold add_charger_to_station.
    destruct (get_station _ _); simpl; eauto using user_evolves_refl.
  - unfold start_charging.
    destruct (get_user_by_id _ _) as [user|];
      [|eauto using user_evolves_refl].
    destruct (get_station _ _); [|eauto using user_evolves_refl].
    destruct (get_available_chargers _ _) as [|c rest];
      [eauto using user_evolves_refl|].
    pose proof (start_session_evolves (heap w) user c now r u Hr) as Hs.
    destruct (start_session _ _ _ _) as [h [session|]]; [|done].
    by destruct (session_user_id _ _).
  - unfold end_charging.
    destruct (get_user_by_id _ _); [|eauto using user_evolves_refl]. simpl.
    by apply end_session_evolves.
  - unfold recargar_saldo_usuario.
    destruct (get_user_by_id _ _) as [user|];
      [|eauto using user_evolves_refl].
    destruct (user_objs (heap w) !! user) as [u0|] eqn:Hu0;
      [|eauto using user_evolves_refl].
    pose proof (recargar_saldo_evolves u0 cantidad) as Hev.
    destruct (recargar_saldo u0 cantidad) as [u1 ok]. simpl in *.
    destruct (decide (user = r)) as [->|Hne].
    + rewrite list_lookup_insert_eq by (by eapply lookup_lt_Some).
      eexists. split; [done|]. congruence.
    + rewrite list_lookup_insert_ne by done. eauto using user_evolves_refl.
  - unfold iniciar_mantenimiento.
    destruct (PyDict.get id (maintenances _)); simpl;
      eauto using user_evolves_refl.
  - unfold completar_mantenimiento.
    destruct (PyDict.get id (maintenances _)); simpl;
      eauto using user_evolves_refl.
Qed.

(** X28. Through every sequence of service operations a user object stays
    in the store with the same identifier, name, email, password hash and
    role, and its session history only grows at the end: no operation
    deletes a user, changes its identity or drops a past session. *)
Theorem users_persist
    (ext : External) (w : World) (ops : list Op) (r : ref) (u : User) :
  user_objs (heap w) !! r = Some u →
  ∃ u', user_objs (heap (run ext w ops)) !! r = Some u' ∧ user_evolves u u'.
Proof.
  unfold run. revert w u.
  induction ops as [|op ops IH]; intros w u Hu; simpl.
  - eauto using user_evolves_refl.
  - destruct (step_user_evolves ext w op r u Hu) as (u1 & Hu1 & Hev1).
    destruct (IH _ u1 Hu1) as (u2 & Hu2 & Hev2).
    eauto using user_evolves_trans.
Qed.

Lemma users_persist_witness :
  ∃ u',
    user_objs (heap (run ext0 w_ana [OpStartCharging 7 1 t0;
                                     OpEndCharging 7 t_end])) !! 0%nat
    = Some u'
    ∧ user_evolves
        (User_init 7 "Ana" "ana@example.com"
           (hash_password ext0 "salt" "password123") "individual" 100) u'.
Proof.
  apply (users_persist ext0 w_ana
           [OpStartCharging 7 1 t0; OpEndCharging 7 t_end] 0%nat).
  reflexivity.
Defined.

(** Apart from [register_user], no operation writes the user index. *)
Lemma step_users_index ext w op :
  match op with
  | OpRegisterUser _ _ _ _ _ _ _ => True
  | _ => users (service (step ext w op)) = users (service w)
  end.
Proof.
  destruct op; simpl; try done.
  - unfold delete_station. by destruct (PyDict.contains _ _).
  - unfold add_charger_to_station. by destruct (get_station _ _).
  - unfold start_charging.
    destruct (get_user_by_id _ _); [|done].
    destruct (get_station _ _); [|done].
    destruct (get_available_chargers _ _); [done|].
    destruct (start_session _ _ _ _) as [h [session|]]; [|done].
    by destruct (session_user_id _ _).
  - unfold end_charging.
    destruct (get_user_by_id _ _); [|done]. simpl.
    by destruct (PyDict.contains _ _).
  - unfold recargar_saldo_usuario.
    destruct (get_user_by_id _ _) as [user|]; [|done].
    destruct (user_objs (heap w) !! user); [|done].
    by destruct (recargar_saldo _ _).
  - unfold iniciar_mantenimiento.
    by destruct (PyDict.get id (maintenances _)).
  - unfold completar_mantenimiento.
    by destruct (PyDict.get id (maintenances _)).
Qed.

Lemma emails_unique_frame ext w op :
  users (service (step ext w op)) = users (service w) →
  indexed_users_ok w → emails_unique w → emails_unique (step ext w op).
Proof.
  intros Hidx Hok Huniq k1 k2 r1 r2 u1' u2' Hk1 Hk2 Hu1' Hu2' Hemail.
  unfold get_user_by_id in Hk1, Hk2. rewrite Hidx in Hk1, Hk2.
  destruct (Hok k1 r1 Hk1) as (u1 & Hu1 & _).
  destruct (Hok k2 r2 Hk2) as (u2 & Hu2 & _).
  destruct (step_user_evolves ext w op r1 u1 Hu1)
    as (u1'' & Hu1'' & (_ & _ & He1 & _)).
  destruct (step_user_evolves ext w op r2 u2 Hu2)
    as (u2'' & Hu2'' & (_ & _ & He2 & _)).
  apply (Huniq k1 k2 r1 r2 u1 u2); try done. congruence.
Qed.

Lemma emails_unique_step ext w op :
  indexed_users_ok w → emails_unique w → emails_unique (step ext w op).
Proof.
  intros Hok Huniq.
  pose proof (step_users_index ext w op) as Hidx.
  destruct op; try (by apply emails_unique_frame).
  simpl. unfold register_user.
  destruct (get_user_by_email w email) eqn:He; simpl; [done|].
  apply get_user_by_email_None_inv in He.
  assert (∀ k r u,
            k ≠ new_id →
            PyDict.get k (PyDict.set new_id (length (user_objs (heap w)))
                            (users (service w))) = Some r →
            (user_objs (heap w)
               ++ [User_init new_id name email (hash_password ext salt password)
                     utype saldo_inicial]) !! r = Some u →
            get_user_by_id w k = Some r
            ∧ user_objs (heap w) !! r = Some u
            ∧ u_email u ≠ email) as Hold.
  { intros k r u Hk Hget Hu. rewrite get_set_ne in Hget by done.
    destruct (Hok k r Hget) as (u0 & Hu0 & _).
    rewrite lookup_app_l in Hu by (by eapply lookup_lt_Some).
    repeat split; try done.
    intros Hmail. apply He. exists r, u. repeat split; try done.
    unfold PyDict.values. apply in_map_iff. exists (k, r). split; [done|].
    by apply get_Some_In. }
  assert (∀ r u,
            PyDict.get new_id (PyDict.set new_id (length (user_objs (heap w)))
                                 (users (service w))) = Some r →
            (user_objs (heap w)
               ++ [User_init new_id name email (hash_password ext salt password)
                     utype saldo_inicial]) !! r = Some u →
            u_email u = email) as Hnew.
  { intros r u Hget Hu. rewrite get_set_eq in Hget. injection Hget as <-.
    rewrite lookup_app_r in Hu by lia. rewrite Nat.sub_diag in Hu.
    by injection Hu as <-. }
  intros k1 k2 r1 r2 u1 u2 Hk1 Hk2 Hu1 Hu2 Hemail.
  unfold get_user_by_id in Hk1, Hk2. simpl in Hk1, Hk2, Hu1, Hu2.
  destruct (decide (k1 = new_id)) as [->|Hn1];
    destruct (decide (k2 = new_id)) as [->|Hn2]; [done| | |].
  - destruct (Hold k2 r2 u2 Hn2 Hk2 Hu2) as (_ & _ & Hne).
    rewrite (Hnew r1 u1 Hk1 Hu1) in Hemail. congruence.
  - destruct (Hold k1 r1 u1 Hn1 Hk1 Hu1) as (_ & _ & Hne).
    rewrite (Hnew r2 u2 Hk2 Hu2) in Hemail. congruence.
  - destruct (Hold k1 r1 u1 Hn1 Hk1 Hu1) as (Hg1 & Ho1 & _).
    destruct (Hold k2 r2 u2 Hn2 Hk2 Hu2) as (Hg2 & Ho2 & _).
    by apply (Huniq k1 k2 r1 r2 u1 u2).
Qed.

(** X29. In every state the service reaches from the empty one, emails are
    unique among indexed users: two different identifiers of the user index
    never lead to users with the same email. *)
Theorem reachable_emails_unique (ext : External) (ops : list Op) :
  emails_unique (run ext world0 ops).
Proof.
  unfold run.
  assert (indexed_users_ok world0 ∧ emails_unique world0) as H0.
  { split; [intros k r|intros k1 k2 r1 r2 u1 u2]; discriminate. }
  revert H0. generalize world0.
  induction ops as [|op ops IH]; intros w [Hok Huniq]; simpl; [done|].
  apply IH. split.
  - by apply indexed_users_ok_step.
  - by apply emails_unique_step.
Qed.

Lemma reachable_emails_unique_witness :
  get_user_by_email (run ext0 world0 ops_two_users) "ana@example.com"
  = Some 0%nat
  ∧ (7 : Z) = 7.
Proof.
  split; [reflexivity|].
  apply (reachable_emails_unique ext0 ops_two_users 7 7 0%nat 0%nat
           (User_init 7 "Ana" "ana@example.com"
              (hash_password ext0 "salt" "password123") "individual" 100)
           (User_init 7 "Ana" "ana@example.com"
              (hash_password ext0 "salt" "password123") "individual" 100));
    reflexivity.
Defined.

Lemma step_history_grows ext w op k :
  ¬ registers k op →
  get_user_sessions_history w k
    `prefix_of` get_user_sessions_history (step ext w op) k.
Proof.
  intros Hreg. unfold get_user_sessions_history.
  assert (get_user_by_id (step ext w op) k = get_user_by_id w k) as Hidx.
  { unfold get_user_by_id.
    pose proof (step_users_index ext w op) as Hi.
    destruct op; try (by rewrite Hi).
    simpl. unfold register_user.
    destruct (get_user_by_email _ _); simpl; [done|].
    apply get_set_ne. simpl in Hreg. done. }
  rewrite Hidx.
  destruct (get_user_by_id w k) as [r|]; [|done].
  destruct (user_objs (heap w) !! r) as [u|] eqn:Hu; [|apply prefix_nil].
  destruct (step_user_evolves ext w op r u Hu)
    as (u' & Hu' & (_ & _ & _ & _ & _ & Hp)).
  by rewrite Hu'.
Qed.

(** X30. The history [get_user_sessions_history] returns for an identifier
    only grows at its end through service operations, as long as no later
    registration draws the same identifier again; for an unknown identifier
    it is empty. *)
Theorem history_only_grows
    (ext : External) (w : World) (ops : list Op) (k : UUID) :
  Forall (fun op => ¬ registers k op) ops →
  get_user_sessions_history w k
    `prefix_of` get_user_sessions_history (run ext w ops) k
  ∧ (get_user_by_id w k = None → get_user_sessions_history w k = []).
Proof.
  intros Hops. split.
  - unfold run. revert w.
    induction ops as [|op ops IH]; intros w; simpl; [done|].
    inversion Hops as [|? ? Hop Hrest]; subst.
    etrans; [by apply (step_history_grows ext w op k)|]. by apply IH.
  - intros Hnone. unfold get_user_sessions_history. by rewrite Hnone.
Qed.

Lemma history_only_grows_witness :
  get_user_sessions_history w_ana 7
    `prefix_of`
    get_user_sessions_history
      (run ext0 w_ana [OpStartCharging 7 1 t0; OpEndCharging 7 t_end]) 7.
Proof.
  apply (history_only_grows ext0 w_ana
           [OpStartCharging 7 1 t0; OpEndCharging 7 t_end] 7).
  repeat constructor; simpl; tauto.
Defined.
